(** * rustion: the mock-data generator [mock.py] and the policy engine it seeds

    The first part embeds [generate()] of [mock.py]: the rows it builds, the
    random, UUID and clock sources it reads, and the SQLite connection it
    writes to.  The second part models the authorization engine that the
    [casbin_rule] table is written for. *)

From Stdlib Require Import ZArith NArith Ascii String.
From Stdlib Require QArith.QArith_base.
From stdpp Require Import base tactics option list sets gmap strings pretty.

Local Open Scope string_scope.
Local Open Scope list_scope.
Local Open Scope Z_scope.

(** ** Rows of the five tables

    One record per table, with the column names of the INSERT statements. *)

Module User.
Record t := mk {
  id : string;
  username : string;
  email : string;
  password_hash : string;
  authorized_keys : string;
  force_init_pass : Z;
  is_active : Z;
  updated_by : string;
  updated_at : Z
}.
End User.

Module Target.
Record t := mk {
  id : string;
  name : string;
  hostname : string;
  port : Z;
  server_public_key : string;
  description : string;
  is_active : Z;
  updated_by : string;
  updated_at : Z
}.
End Target.

Module Secret.
Record t := mk {
  id : string;
  name : string;
  user : string;
  password : option string;
  private_key : option string;
  public_key : option string;
  is_active : Z;
  updated_by : string;
  updated_at : Z
}.
End Secret.

Module TargetSecret.
Record t := mk {
  id : string;
  target_id : string;
  secret_id : string;
  is_active : Z;
  updated_by : string;
  updated_at : Z
}.
End TargetSecret.

Module CasbinRule.
Record t := mk {
  id : string;
  ptype : string;
  v0 : string;
  v1 : string;
  v2 : string;
  v3 : string;
  v4 : string;
  v5 : string;
  updated_by : string;
  updated_at : Z
}.
End CasbinRule.

(** The database file: one list of rows per table, in insertion order. *)
Module DB.
Record t := mk {
  users : list User.t;
  targets : list Target.t;
  secrets : list Secret.t;
  target_secrets : list TargetSecret.t;
  casbin_rule : list CasbinRule.t
}.
End DB.

(** ** What the script reads from outside

    [randbits k] is the k-th draw of the [random] module, [urandom k] the
    k-th 16-byte read of [os.urandom] (as a big-endian number), [time_time k]
    the k-th reading of [time.time()].  [integrity] is the schema of the
    database file: it says whether SQLite accepts a table contents.  The
    CREATE TABLE statements are not part of [mock.py], so the schema stays a
    parameter. *)
Record Env := {
  randbits : nat → nat;
  urandom : nat → N;
  time_time : nat → QArith_base.Q;
  integrity : DB.t → bool
}.

(** The state the script threads: how much of each source was consumed, the
    rows as the open connection sees them ([conn]) and the rows on disk
    ([disk]); [conn.commit()] copies the former to the latter. *)
Record World := {
  rand_pos : nat;
  uuid_pos : nat;
  clock_pos : nat;
  conn : DB.t;
  disk : DB.t
}.

Inductive exn := TypeError | IndexError | ValueError | IntegrityError.

Inductive result (A : Type) :=
  | Ok (a : A)
  | Raise (e : exn).
Arguments Ok {A} a.
Arguments Raise {A} e.

(** A computation either returns a value or raises; the world it leaves
    behind is kept in both cases. *)
Definition M (A : Type) : Type := World → result A * World.

Definition ret {A} (a : A) : M A := λ w, (Ok a, w).

Definition bind {A B} (m : M A) (k : A → M B) : M B :=
  λ w, match m w with
       | (Ok a, w') => k a w'
       | (Raise e, w') => (Raise e, w')
       end.

Definition raise {A} (e : exn) : M A := λ w, (Raise e, w).

#[export] Instance M_ret : MRet M := @ret.
#[export] Instance M_bind : MBind M := λ A B k m, bind m k.

(** [for x in xs: acc = body(acc, x)]: a Python loop that appends to a list
    carries that list as [acc]. *)
Fixpoint for_in {A B} (xs : list A) (acc : B) (body : B → A → M B) : M B :=
  match xs with
  | [] => ret acc
  | x :: xs' => bind (body acc x) (λ acc', for_in xs' acc' body)
  end.

(** [range(a, b)] for [a <= b]. *)
Definition range (a b : nat) : list nat := seq a (b - a).

(** ** Helpers of [mock.py] and the library calls it makes *)

Definition hex_digit (d : N) : ascii :=
  match d with
  | 0 => "0" | 1 => "1" | 2 => "2" | 3 => "3" | 4 => "4" | 5 => "5"
  | 6 => "6" | 7 => "7" | 8 => "8" | 9 => "9" | 10 => "a" | 11 => "b"
  | 12 => "c" | 13 => "d" | 14 => "e" | _ => "f"
  end%N%char.

(** ['%0<width>x' % n] for [n] below [16^width]. *)
Fixpoint hex_pad (width : nat) (n : N) (acc : string) : string :=
  match width with
  | O => acc
  | S w => hex_pad w (N.shiftr n 4) (String (hex_digit (N.land n 15)) acc)
  end.

(** [uuid.UUID(bytes=b, version=4).int]: the variant and version bits are
    overwritten. *)
Definition uuid4_int (r : N) : N :=
  let i := (r mod 2 ^ 128)%N in
  let i := N.lor (N.ldiff i (N.shiftl 0xc000 48)) (N.shiftl 0x8000 48) in
  N.lor (N.ldiff i (N.shiftl 0xf000 64)) (N.shiftl 4 76).

(** [str(uuid.UUID)]: 32 hex digits cut 8-4-4-4-12. *)
Definition uuid_str (i : N) : string :=
  let hex := hex_pad 32 i EmptyString in
  substring 0 8 hex +:+ "-" +:+ substring 8 4 hex +:+ "-" +:+
  substring 12 4 hex +:+ "-" +:+ substring 16 4 hex +:+ "-" +:+
  substring 20 12 hex.

(** The k-th identifier [uuid4()] hands out. *)
Definition uuid_at (env : Env) (k : nat) : string :=
  uuid_str (uuid4_int (urandom env k)).

(** [int(x)] of a float: truncation toward zero. *)
Definition int_of (q : QArith_base.Q) : Z :=
  Z.quot (QArith_base.Qnum q) (Z.pos (QArith_base.Qden q)).

(** The k-th value [now_ts()] returns. *)
Definition now_at (env : Env) (k : nat) : Z := int_of (time_time env k).

Definition tick_rand (w : World) : World :=
  {| rand_pos := S (rand_pos w); uuid_pos := uuid_pos w;
     clock_pos := clock_pos w; conn := conn w; disk := disk w |}.

Definition tick_uuid (w : World) : World :=
  {| rand_pos := rand_pos w; uuid_pos := S (uuid_pos w);
     clock_pos := clock_pos w; conn := conn w; disk := disk w |}.

Definition tick_clock (w : World) : World :=
  {| rand_pos := rand_pos w; uuid_pos := uuid_pos w;
     clock_pos := S (clock_pos w); conn := conn w; disk := disk w |}.

Definition set_conn (db : DB.t) (w : World) : World :=
  {| rand_pos := rand_pos w; uuid_pos := uuid_pos w;
     clock_pos := clock_pos w; conn := db; disk := disk w |}.

(** The double quote character, and [json.dumps([s])] for a string [s] that
    needs no escaping. *)
Definition dquote : string := String (ascii_of_nat 34) EmptyString.

Definition json_dumps_singleton (s : string) : string :=
  "[" +:+ dquote +:+ s +:+ dquote +:+ "]".

(** The INSERT statements: rows are appended to their table. *)
Definition insert_users (rows : list User.t) (db : DB.t) : DB.t :=
  {| DB.users := DB.users db ++ rows; DB.targets := DB.targets db;
     DB.secrets := DB.secrets db; DB.target_secrets := DB.target_secrets db;
     DB.casbin_rule := DB.casbin_rule db |}.

Definition insert_targets (rows : list Target.t) (db : DB.t) : DB.t :=
  {| DB.users := DB.users db; DB.targets := DB.targets db ++ rows;
     DB.secrets := DB.secrets db; DB.target_secrets := DB.target_secrets db;
     DB.casbin_rule := DB.casbin_rule db |}.

Definition insert_secrets (rows : list Secret.t) (db : DB.t) : DB.t :=
  {| DB.users := DB.users db; DB.targets := DB.targets db;
     DB.secrets := DB.secrets db ++ rows;
     DB.target_secrets := DB.target_secrets db;
     DB.casbin_rule := DB.casbin_rule db |}.

Definition insert_target_secrets (rows : list TargetSecret.t) (db : DB.t) : DB.t :=
  {| DB.users := DB.users db; DB.targets := DB.targets db;
     DB.secrets := DB.secrets db;
     DB.target_secrets := DB.target_secrets db ++ rows;
     DB.casbin_rule := DB.casbin_rule db |}.

Definition insert_casbin_rule (rows : list CasbinRule.t) (db : DB.t) : DB.t :=
  {| DB.users := DB.users db; DB.targets := DB.targets db;
     DB.secrets := DB.secrets db; DB.target_secrets := DB.target_secrets db;
     DB.casbin_rule := DB.casbin_rule db ++ rows |}.

(** [SELECT id FROM users WHERE username = 'admin'] followed by
    [fetchone()]: the id of the first matching row, [None] without one. *)
Definition select_admin_id (db : DB.t) : option string :=
  User.id <$> head (filter (λ u, User.username u = "admin") (DB.users db)).

Section Script.
Variable env : Env.

(** [uuid4()]: [str(uuid.uuid4())]. *)
Definition uuid4 : M string :=
  λ w, (Ok (uuid_at env (uuid_pos w)), tick_uuid w).

(** [now_ts()]: [int(time.time())]. *)
Definition now_ts : M Z :=
  λ w, (Ok (now_at env (clock_pos w)), tick_clock w).

(** [random._randbelow(n)] for [n > 0]: some number below [n]. *)
Definition randbelow (n : nat) : M nat :=
  λ w, (Ok (randbits env (rand_pos w) `mod` n)%nat, tick_rand w).

(** [random.randint(a, b)]: [a + randbelow(b - a + 1)], ValueError on an
    empty range. *)
Definition randint (a b : Z) : M Z :=
  if decide (b < a) then raise ValueError
  else r ← randbelow (Z.to_nat (b - a + 1)); mret (a + Z.of_nat r).

(** [rand_future_ts(from_ts, days)] and [rand_past_ts(from_ts, days)], with
    [None] for a missing [from_ts]; [generate()] calls neither. *)
Definition rand_future_ts (from_ts : option Z) (days : Z) : M Z :=
  from_ts ← match from_ts with Some t => mret t | None => now_ts end;
  d ← randint 60 (days * 24 * 3600);
  mret (from_ts + d).

Definition rand_past_ts (from_ts : option Z) (days : Z) : M Z :=
  from_ts ← match from_ts with Some t => mret t | None => now_ts end;
  d ← randint 60 (days * 24 * 3600);
  mret (from_ts - d).

(** [random.choice(seq)]: [seq[randbelow(len(seq))]], IndexError on an
    empty sequence. *)
Definition choice {A} (l : list A) : M A :=
  match l with
  | [] => raise IndexError
  | _ => j ← randbelow (length l);
         match l !! j with
         | Some x => mret x
         | None => raise IndexError
         end
  end.

(** The selection loop of [random.sample] on a pool:
    [j = randbelow(n - i); result[i] = pool[j]; pool[j] = pool[n - i - 1]]. *)
Fixpoint sample_loop {A} (k m : nat) (pool result : list A) : M (list A) :=
  match k with
  | O => mret result
  | S k' =>
      j ← randbelow m;
      match pool !! j, pool !! (m - 1)%nat with
      | Some x, Some y =>
          sample_loop k' (m - 1)%nat (<[j := y]> pool) (result ++ [x])
      | _, _ => raise IndexError
      end
  end.

(** [random.sample(population, k)].  CPython selects from a copied pool
    when [len(population) <= 21 + 4 ** ceil(log(3 * k, 4))] (for [k > 5],
    21 otherwise), which is the case at both call sites. *)
Definition sample {A} (population : list A) (k : nat) : M (list A) :=
  if decide (k ≤ length population)%nat
  then sample_loop k (length population) population []
  else raise ValueError.

(** [sqlite3.connect(DB_FILE)]: the connection starts from the file. *)
Definition connect : M unit := λ w, (Ok tt, set_conn (disk w) w).

(** [cur.execute(...).fetchone()[0]]: subscripting [None] is a TypeError. *)
Definition fetch_admin_id : M string :=
  λ w, match select_admin_id (conn w) with
       | Some a => (Ok a, w)
       | None => (Raise TypeError, w)
       end.

(** One INSERT statement: the rows reach the connection when the schema
    accepts the table contents; otherwise sqlite3 raises IntegrityError and
    the statement leaves no trace. *)
Definition execute (ins : DB.t → DB.t) : M unit :=
  λ w, if integrity env (ins (conn w))
       then (Ok tt, set_conn (ins (conn w)) w)
       else (Raise IntegrityError, w).

(** [cur.executemany(INSERT ..., rows)]: the statement is run once per row,
    in order; the rows inserted before a refused one stay in the open
    transaction. *)
Definition executemany {A} (ins : list A → DB.t → DB.t) (rows : list A) : M unit :=
  for_in rows tt (λ _ row, execute (ins [row])).

(** [conn.commit()]. *)
Definition commit : M unit :=
  λ w, (Ok tt, {| rand_pos := rand_pos w; uuid_pos := uuid_pos w;
                  clock_pos := clock_pos w; conn := conn w; disk := conn w |}).

(** 3.1 Users *)
Definition gen_users (admin_id : string) : M (list User.t) :=
  for_in (range 1 6) [] (λ users i,
    id ← uuid4;
    force_init_pass ← choice [0; 1];
    ts ← now_ts;
    off ← randint 0 1000;
    let user :=
      {| User.id := id;
         User.username := "user" +:+ pretty i;
         User.email := "user" +:+ pretty i +:+ "@example.com";
         User.password_hash := "hash" +:+ pretty i;
         User.authorized_keys :=
           json_dumps_singleton ("ssh-rsa key" +:+ pretty i);
         User.force_init_pass := force_init_pass;
         User.is_active := 1;
         User.updated_by := admin_id;
         User.updated_at := ts * 1000 + off |} in
    mret (users ++ [user])).

(** 3.2 Targets *)
Definition gen_targets (users : list User.t) : M (list Target.t) :=
  for_in (range 1 201) [] (λ targets i,
    id ← uuid4;
    port ← randint 1024 65535;
    is_active ← choice [0; 1; 1; 1];
    by_ ← choice users;
    ts ← now_ts;
    off ← randint 0 1000;
    let target :=
      {| Target.id := id;
         Target.name := "target-" +:+ pretty i;
         Target.hostname := "host-" +:+ pretty i +:+ ".example.com";
         Target.port := port;
         Target.server_public_key := "pubkey-" +:+ pretty i;
         Target.description := "Target number " +:+ pretty i;
         Target.is_active := is_active;
         Target.updated_by := User.id by_;
         Target.updated_at := ts * 1000 + off |} in
    mret (targets ++ [target])).

(** 3.3 Secrets *)
Definition gen_secrets (users : list User.t) : M (list Secret.t) :=
  for_in (range 1 21) [] (λ secrets i,
    id ← uuid4;
    user ← choice ["root"; "alice"; "bob"];
    is_active ← choice [0; 1; 1; 1];
    by_ ← choice users;
    ts ← now_ts;
    off ← randint 0 1000;
    let secret :=
      {| Secret.id := id;
         Secret.name := "secret-" +:+ pretty i;
         Secret.user := user;
         Secret.password := Some ("pw" +:+ pretty i);
         Secret.private_key := None;
         Secret.public_key := None;
         Secret.is_active := is_active;
         Secret.updated_by := User.id by_;
         Secret.updated_at := ts * 1000 + off |} in
    mret (secrets ++ [secret])).

(** 3.4 Target-Secrets (each target gets 3 random secrets) *)
Definition gen_target_secrets (users : list User.t) (targets : list Target.t)
    (secrets : list Secret.t) : M (list TargetSecret.t) :=
  for_in targets [] (λ target_secrets t,
    chosen ← sample secrets 3;
    for_in chosen target_secrets (λ target_secrets s,
      id ← uuid4;
      is_active ← choice [0; 1; 1; 1];
      by_ ← choice users;
      ts ← now_ts;
      off ← randint 0 1000;
      let ts_ :=
        {| TargetSecret.id := id;
           TargetSecret.target_id := Target.id t;
           TargetSecret.secret_id := Secret.id s;
           TargetSecret.is_active := is_active;
           TargetSecret.updated_by := User.id by_;
           TargetSecret.updated_at := ts * 1000 + off |} in
      mret (target_secrets ++ [ts_]))).

(** The resource-group rules: 100 bindings for each of the three groups. *)
Definition gen_rules_g2 (users : list User.t)
    (target_secrets : list TargetSecret.t) (casbin_rule : list CasbinRule.t)
    : M (list CasbinRule.t) :=
  for_in ["apple"; "banana"; "peach"] casbin_rule (λ casbin_rule g,
    ts_chosen ← sample target_secrets 100;
    for_in ts_chosen casbin_rule (λ casbin_rule t,
      id ← uuid4;
      by_ ← choice users;
      ts ← now_ts;
      off ← randint 0 1000;
      let cr :=
        {| CasbinRule.id := id;
           CasbinRule.ptype := "g2";
           CasbinRule.v0 := TargetSecret.id t;
           CasbinRule.v1 := g;
           CasbinRule.v2 := EmptyString;
           CasbinRule.v3 := EmptyString;
           CasbinRule.v4 := EmptyString;
           CasbinRule.v5 := EmptyString;
           CasbinRule.updated_by := User.id by_;
           CasbinRule.updated_at := ts * 1000 + off |} in
      mret (casbin_rule ++ [cr]))).

(** The user-group rules: every user joins [login_group]. *)
Definition gen_rules_g1 (users : list User.t) (casbin_rule : list CasbinRule.t)
    : M (list CasbinRule.t) :=
  for_in users casbin_rule (λ casbin_rule u,
    id ← uuid4;
    by_ ← choice users;
    ts ← now_ts;
    off ← randint 0 1000;
    let cr :=
      {| CasbinRule.id := id;
         CasbinRule.ptype := "g1";
         CasbinRule.v0 := User.id u;
         CasbinRule.v1 := "login_group";
         CasbinRule.v2 := EmptyString;
         CasbinRule.v3 := EmptyString;
         CasbinRule.v4 := EmptyString;
         CasbinRule.v5 := EmptyString;
         CasbinRule.updated_by := User.id by_;
         CasbinRule.updated_at := ts * 1000 + off |} in
    mret (casbin_rule ++ [cr])).

(** The permission rules: one per user. *)
Definition gen_rules_p (users : list User.t) (casbin_rule : list CasbinRule.t)
    : M (list CasbinRule.t) :=
  for_in users casbin_rule (λ casbin_rule u,
    id ← uuid4;
    v1 ← choice ["apple"; "banana"; "peach"];
    v2 ← choice ["exec"; "shell"];
    by_ ← choice users;
    ts ← now_ts;
    off ← randint 0 1000;
    let cr :=
      {| CasbinRule.id := id;
         CasbinRule.ptype := "p";
         CasbinRule.v0 := User.id u;
         CasbinRule.v1 := v1;
         CasbinRule.v2 := v2;
         CasbinRule.v3 := EmptyString;
         CasbinRule.v4 := EmptyString;
         CasbinRule.v5 := EmptyString;
         CasbinRule.updated_by := User.id by_;
         CasbinRule.updated_at := ts * 1000 + off |} in
    mret (casbin_rule ++ [cr])).

(** [generate()].  After the commit the script closes the connection and
    prints a line, which changes nothing that is modelled here. *)
Definition generate : M unit :=
  connect;;
  admin_id ← fetch_admin_id;
  users ← gen_users admin_id;
  executemany insert_users users;;
  targets ← gen_targets users;
  executemany insert_targets targets;;
  secrets ← gen_secrets users;
  executemany insert_secrets secrets;;
  target_secrets ← gen_target_secrets users targets secrets;
  executemany insert_target_secrets target_secrets;;
  casbin_rule ← gen_rules_g2 users target_secrets [];
  casbin_rule ← gen_rules_g1 users casbin_rule;
  casbin_rule ← gen_rules_p users casbin_rule;
  executemany insert_casbin_rule casbin_rule;;
  commit.
End Script.

(** ** Predicates on script fragments

    [wp m w Q]: run from [w], [m] returns (does not raise) and the value and
    world it leaves satisfy [Q]. *)
Definition wp {A} (m : M A) (w : World) (Q : A → World → Prop) : Prop :=
  ∃ a w', m w = (Ok a, w') ∧ Q a w'.

(** [steps n w w']: between [w] and [w'] exactly [n] identifiers and [n]
    clock readings were taken and the connection was not touched. *)
Definition steps (n : nat) (w w' : World) : Prop :=
  uuid_pos w' = (uuid_pos w + n)%nat ∧ clock_pos w' = (clock_pos w + n)%nat ∧
  conn w' = conn w ∧ disk w' = disk w.

(** ** The columns every table shares *)
Class Row (A : Type) := {
  row_id : A → string;
  row_updated_by : A → string;
  row_updated_at : A → Z
}.

#[export] Instance User_row : Row User.t :=
  {| row_id := User.id; row_updated_by := User.updated_by;
     row_updated_at := User.updated_at |}.
#[export] Instance Target_row : Row Target.t :=
  {| row_id := Target.id; row_updated_by := Target.updated_by;
     row_updated_at := Target.updated_at |}.
#[export] Instance Secret_row : Row Secret.t :=
  {| row_id := Secret.id; row_updated_by := Secret.updated_by;
     row_updated_at := Secret.updated_at |}.
#[export] Instance TargetSecret_row : Row TargetSecret.t :=
  {| row_id := TargetSecret.id; row_updated_by := TargetSecret.updated_by;
     row_updated_at := TargetSecret.updated_at |}.
#[export] Instance CasbinRule_row : Row CasbinRule.t :=
  {| row_id := CasbinRule.id; row_updated_by := CasbinRule.updated_by;
     row_updated_at := CasbinRule.updated_at |}.

(** [ms_stamp env c z]: [z] is [now_ts() * 1000 + random.randint(0, 1000)]
    for the c-th clock reading. *)
Definition ms_stamp (env : Env) (c : nat) (z : Z) : Prop :=
  ∃ off, 0 ≤ off ≤ 1000 ∧ z = now_at env c * 1000 + off.

(** A row built from the u-th identifier and the c-th clock reading. *)
Definition stamp_ok (env : Env) (u c : nat) {A} `{Row A} (r : A) : Prop :=
  row_id r = uuid_at env u ∧ ms_stamp env c (row_updated_at r).

(** Rows built one after the other, starting at identifier [u0] and clock
    reading [c0]. *)
Definition stamped (env : Env) (u0 c0 : nat) {A} `{Row A} (rows : list A) : Prop :=
  ∀ i r, rows !! i = Some r → stamp_ok env (u0 + i) (c0 + i) r.

(** ** What each part of [generate()] builds *)

Definition user_row (admin_id : string) (i : nat) (u : User.t) : Prop :=
  User.username u = "user" +:+ pretty i ∧ User.updated_by u = admin_id.

Definition target_row (i : nat) (t : Target.t) : Prop :=
  1024 ≤ Target.port t ≤ 65535.

Definition secret_row (i : nat) (s : Secret.t) : Prop :=
  Secret.password s = Some ("pw" +:+ pretty i) ∧
  Secret.private_key s = None ∧ Secret.public_key s = None.

Definition binding_row (secrets : list Secret.t) (t : Target.t)
    (chunk : list TargetSecret.t) : Prop :=
  ∃ chosen, chosen ⊆+ secrets ∧
    Forall2 (λ s b, TargetSecret.target_id b = Target.id t ∧
                    TargetSecret.secret_id b = Secret.id s) chosen chunk.

Definition group_names : list string := ["apple"; "banana"; "peach"].
Definition action_names : list string := ["exec"; "shell"].

Definition g2_rule (g : string) (t : TargetSecret.t) (r : CasbinRule.t) : Prop :=
  CasbinRule.ptype r = "g2" ∧ CasbinRule.v0 r = TargetSecret.id t ∧
  CasbinRule.v1 r = g ∧ CasbinRule.v2 r = EmptyString ∧
  CasbinRule.v3 r = EmptyString ∧ CasbinRule.v4 r = EmptyString ∧
  CasbinRule.v5 r = EmptyString.

Definition g2_block (target_secrets : list TargetSecret.t) (g : string)
    (chunk : list CasbinRule.t) : Prop :=
  ∃ ts_chosen, ts_chosen ⊆+ target_secrets ∧ Forall2 (g2_rule g) ts_chosen chunk.

Definition g1_rule (u : User.t) (r : CasbinRule.t) : Prop :=
  CasbinRule.ptype r = "g1" ∧ CasbinRule.v0 r = User.id u ∧
  CasbinRule.v1 r = "login_group" ∧ CasbinRule.v2 r = EmptyString ∧
  CasbinRule.v3 r = EmptyString ∧ CasbinRule.v4 r = EmptyString ∧
  CasbinRule.v5 r = EmptyString.

Definition p_rule (u : User.t) (r : CasbinRule.t) : Prop :=
  CasbinRule.ptype r = "p" ∧ CasbinRule.v0 r = User.id u ∧
  CasbinRule.v1 r ∈ group_names ∧ CasbinRule.v2 r ∈ action_names ∧
  CasbinRule.v3 r = EmptyString ∧ CasbinRule.v4 r = EmptyString ∧
  CasbinRule.v5 r = EmptyString.

(** ** A whole run

    The five row lists of one run.  [n] counts the [executemany] calls that
    went through (5: the run reached [commit]) and [m] the rows that the
    next call inserted before the database refused one. *)
Record Generated := {
  g_users : list User.t;
  g_targets : list Target.t;
  g_secrets : list Secret.t;
  g_target_secrets : list TargetSecret.t;
  g_casbin_rule : list CasbinRule.t
}.

(** What the k-th [executemany] call has inserted of its list [l]. *)
Definition table_part {A} (k n m : nat) (l : list A) : list A :=
  if decide (k ≤ n)%nat then l
  else if decide (k = S n) then take m l
  else [].

Definition inserted (n m : nat) (g : Generated) (db : DB.t) : DB.t :=
  {| DB.users := DB.users db ++ table_part 1 n m (g_users g);
     DB.targets := DB.targets db ++ table_part 2 n m (g_targets g);
     DB.secrets := DB.secrets db ++ table_part 3 n m (g_secrets g);
     DB.target_secrets :=
       DB.target_secrets db ++ table_part 4 n m (g_target_secrets g);
     DB.casbin_rule := DB.casbin_rule db ++ table_part 5 n m (g_casbin_rule g) |}.

Definition users_ok (env : Env) (w : World) (a : string) (g : Generated) : Prop :=
  Forall2 (user_row a) (range 1 6) (g_users g) ∧
  stamped env (uuid_pos w) (clock_pos w) (g_users g).

Definition targets_ok (env : Env) (w : World) (g : Generated) : Prop :=
  Forall2 target_row (range 1 201) (g_targets g) ∧
  stamped env (uuid_pos w + 5) (clock_pos w + 5) (g_targets g).

Definition secrets_ok (env : Env) (w : World) (g : Generated) : Prop :=
  Forall2 secret_row (range 1 21) (g_secrets g) ∧
  stamped env (uuid_pos w + 205) (clock_pos w + 205) (g_secrets g).

Definition target_secrets_ok (env : Env) (w : World) (g : Generated) : Prop :=
  (∃ chunks, g_target_secrets g = concat chunks ∧
     Forall2 (λ t c, binding_row (g_secrets g) t c ∧ length c = 3%nat)
             (g_targets g) chunks) ∧
  length (g_target_secrets g) = 600%nat ∧
  stamped env (uuid_pos w + 225) (clock_pos w + 225) (g_target_secrets g).

Definition casbin_rule_ok (env : Env) (w : World) (g : Generated) : Prop :=
  (∃ chunks g1s ps, g_casbin_rule g = concat chunks ++ g1s ++ ps ∧
     Forall2 (λ name c, g2_block (g_target_secrets g) name c ∧ length c = 100%nat)
             group_names chunks ∧
     Forall2 g1_rule (g_users g) g1s ∧ Forall2 p_rule (g_users g) ps) ∧
  length (g_casbin_rule g) = 310%nat ∧
  stamped env (uuid_pos w + 825) (clock_pos w + 825) (g_casbin_rule g).

Definition good_run (env : Env) (w : World) (a : string) (n : nat)
    (g : Generated) : Prop :=
  ((1 ≤ n)%nat → users_ok env w a g) ∧
  ((2 ≤ n)%nat → targets_ok env w g) ∧
  ((3 ≤ n)%nat → secrets_ok env w g) ∧
  ((4 ≤ n)%nat → target_secrets_ok env w g) ∧
  ((5 ≤ n)%nat → casbin_rule_ok env w g).

(** The outcome of a run in which [n] [executemany] calls went through. *)
Definition outcome (n : nat) : result unit :=
  if decide (n = 5)%nat then Ok tt else Raise IntegrityError.

(** ** The rows a run writes

    What the connection holds at the end of the run beyond what the file
    held at its start. *)
Definition run_conn (env : Env) (w : World) : DB.t := conn (generate env w).2.

Definition written_users (env : Env) (w : World) : list User.t :=
  drop (length (DB.users (disk w))) (DB.users (run_conn env w)).

Definition written_targets (env : Env) (w : World) : list Target.t :=
  drop (length (DB.targets (disk w))) (DB.targets (run_conn env w)).

Definition written_secrets (env : Env) (w : World) : list Secret.t :=
  drop (length (DB.secrets (disk w))) (DB.secrets (run_conn env w)).

Definition written_target_secrets (env : Env) (w : World) : list TargetSecret.t :=
  drop (length (DB.target_secrets (disk w))) (DB.target_secrets (run_conn env w)).

Definition written_casbin_rule (env : Env) (w : World) : list CasbinRule.t :=
  drop (length (DB.casbin_rule (disk w))) (DB.casbin_rule (run_conn env w)).

(** ** Where a rule comes from *)

Inductive rule_origin (users : list User.t) (target_secrets : list TargetSecret.t)
    (r : CasbinRule.t) : Prop :=
  | origin_g2 t g :
      t ∈ target_secrets → g ∈ group_names → g2_rule g t r →
      rule_origin users target_secrets r
  | origin_g1 u : u ∈ users → g1_rule u r → rule_origin users target_secrets r
  | origin_p u : u ∈ users → p_rule u r → rule_origin users target_secrets r.

Definition ptypes : list string := ["g1"; "g2"; "p"].

(** A rule with its required slots filled and the others empty. *)
Definition well_formed (r : CasbinRule.t) : Prop :=
  (CasbinRule.ptype r = "g1" ∨ CasbinRule.ptype r = "g2" →
     CasbinRule.v0 r ≠ EmptyString ∧ CasbinRule.v1 r ≠ EmptyString ∧
     CasbinRule.v2 r = EmptyString ∧ CasbinRule.v3 r = EmptyString ∧
     CasbinRule.v4 r = EmptyString ∧ CasbinRule.v5 r = EmptyString) ∧
  (CasbinRule.ptype r = "p" →
     CasbinRule.v0 r ≠ EmptyString ∧ CasbinRule.v1 r ≠ EmptyString ∧
     CasbinRule.v2 r ≠ EmptyString ∧ CasbinRule.v3 r = EmptyString ∧
     CasbinRule.v4 r = EmptyString ∧ CasbinRule.v5 r = EmptyString).


(** ** No two grouping rules with the same key *)


Definition is_grouping (r : CasbinRule.t) : Prop :=
  CasbinRule.ptype r = "g1" ∨ CasbinRule.ptype r = "g2".

#[export] Instance is_grouping_dec r : Decision (is_grouping r).
Proof. unfold is_grouping. apply _. Defined.

(** * The authorization engine

    The engine is specified, not part of [mock.py]; it reads the tables the
    generator fills. *)

(** Modelled from the spec: the decision [Authorize] returns,
    [AuthDecision{allow, reason}] with the reasons of sections 4.3 and 7. *)
Inductive AuthDecision :=
  | Allow
  | Deny (reason : string).

(** Modelled from the spec: a call either decides or reports
    [StoreUnavailable], which is never turned into a [Deny]. *)
Inductive AuthResult :=
  | Decided (d : AuthDecision)
  | StoreUnavailable.

(** Modelled from the spec: the Identity Store, with lookup by id
    ([GetUser], [GetTarget], [GetSecret], [GetTargetSecret]); a missing key
    is [NotFound]. *)
Record IdentityStore := {
  store_users : gmap string User.t;
  store_targets : gmap string Target.t;
  store_secrets : gmap string Secret.t;
  store_bindings : gmap string TargetSecret.t
}.

(** Modelled from the spec: the Rule Store read by [ListRules]; [None] is a
    store that cannot be read. *)
Definition RuleStore : Type := option (list CasbinRule.t).

(** Modelled from the spec: [isActive] of a row, stored as 0 or 1. *)
Definition active (flag : Z) : bool := negb (flag =? 0).

(** Modelled from the spec: a grouping rule of type [ruleType] that leads
    from a name in [frontier] to its group; rules with an empty required slot
    are skipped ([InvalidRule]). *)
Definition edge (ruleType : string) (frontier : gset string) (r : CasbinRule.t) : Prop :=
  CasbinRule.ptype r = ruleType ∧ CasbinRule.v0 r ∈ frontier ∧
  CasbinRule.v0 r ≠ EmptyString ∧ CasbinRule.v1 r ≠ EmptyString.

#[export] Instance edge_dec ruleType frontier r : Decision (edge ruleType frontier r).
Proof. unfold edge. apply _. Defined.

(** Modelled from the spec: the groups that the rules give directly to the
    names in [frontier] (scan rules with v0 in the frontier, collect v1). *)
Definition parents (rules : list CasbinRule.t) (ruleType : string)
    (frontier : gset string) : gset string :=
  list_to_set (CasbinRule.v1 <$> filter (edge ruleType frontier) rules).

(** Every group name the rules of one type mention. *)
Definition all_groups (rules : list CasbinRule.t) (ruleType : string) : gset string :=
  list_to_set (CasbinRule.v1 <$> filter (λ r, CasbinRule.ptype r = ruleType) rules).

(** Modelled from the spec: the breadth-first expansion of section 4.1 and
    the design notes: keep the set of visited group names, expand the groups
    found in the last round, stop when a round finds no new group. *)
Fixpoint resolve_loop (fuel : nat) (rules : list CasbinRule.t) (ruleType : string)
    (visited frontier : gset string) : option (gset string) :=
  match fuel with
  | O => None
  | S fuel' =>
      let fresh := parents rules ruleType frontier ∖ visited in
      if decide (fresh = ∅) then Some visited
      else resolve_loop fuel' rules ruleType (visited ∪ fresh) fresh
  end.

(** The expansion with one round more than there are group names. *)
Definition resolve (rules : list CasbinRule.t) (subjectID ruleType : string)
    : option (gset string) :=
  resolve_loop (S (size (all_groups rules ruleType))) rules ruleType ∅ {[subjectID]}.

(** Modelled from the spec: [ResolveGroups(subjectID, ruleType)], the set of
    group names of a subject or resource, transitively. *)
Definition ResolveGroups (rules : list CasbinRule.t) (subjectID ruleType : string)
    : gset string :=
  default ∅ (resolve rules subjectID ruleType).

(** Modelled from the spec: a permission rule that grants the request
    (section 4.2); no wildcard is read into any slot. *)
Definition grants (subjectID : string) (subjectGroups resourceGroups : gset string)
    (action : string) (r : CasbinRule.t) : Prop :=
  CasbinRule.ptype r = "p" ∧
  CasbinRule.v0 r ≠ EmptyString ∧ CasbinRule.v1 r ≠ EmptyString ∧
  CasbinRule.v2 r ≠ EmptyString ∧
  (CasbinRule.v0 r = subjectID ∨ CasbinRule.v0 r ∈ subjectGroups) ∧
  CasbinRule.v1 r ∈ resourceGroups ∧ CasbinRule.v2 r = action.

#[export] Instance grants_dec subjectID sg rg action r :
  Decision (grants subjectID sg rg action r).
Proof. unfold grants. apply _. Defined.

(** Modelled from the spec: [Matches(subjectID, subjectGroups,
    resourceGroups, action)]: some permission rule grants the request. *)
Definition Matches (rules : list CasbinRule.t) (subjectID : string)
    (subjectGroups resourceGroups : gset string) (action : string) : bool :=
  bool_decide (Exists (grants subjectID subjectGroups resourceGroups action) rules).

(** Modelled from the spec: [Authorize(userID, bindingID, action)], the
    steps of section 4.3 with the error handling of section 7. *)
Definition Authorize (ids : IdentityStore) (rs : RuleStore)
    (userID bindingID action : string) : AuthResult :=
  match store_bindings ids !! bindingID with
  | None => Decided (Deny "resource-not-found")
  | Some b =>
      match store_targets ids !! TargetSecret.target_id b,
            store_secrets ids !! TargetSecret.secret_id b with
      | Some t, Some s =>
          if active (TargetSecret.is_active b) && active (Target.is_active t)
             && active (Secret.is_active s)
          then
            match store_users ids !! userID with
            | None => Decided (Deny "resource-not-found")
            | Some _ =>
                match rs with
                | None => StoreUnavailable
                | Some rules =>
                    let subjectGroups := ResolveGroups rules userID "g1" in
                    let resourceGroups := ResolveGroups rules bindingID "g2" in
                    if Matches rules userID subjectGroups resourceGroups action
                    then Decided Allow
                    else Decided (Deny "no-matching-policy")
                end
            end
          else Decided (Deny "inactive-resource")
      | _, _ => Decided (Deny "resource-not-found")
      end
  end.

(** A grouping rule, as the examples of the spec write it. *)
Definition g1 (subject group : string) : CasbinRule.t :=
  {| CasbinRule.id := EmptyString; CasbinRule.ptype := "g1";
     CasbinRule.v0 := subject; CasbinRule.v1 := group;
     CasbinRule.v2 := EmptyString; CasbinRule.v3 := EmptyString;
     CasbinRule.v4 := EmptyString; CasbinRule.v5 := EmptyString;
     CasbinRule.updated_by := EmptyString; CasbinRule.updated_at := 0 |}.




(** ** Concrete inputs *)

(** A run environment: some random draws, the identifiers 0, 1, 2, ..., a
    clock standing at 1762250000.123 and a schema that accepts every row. *)
Definition sample_env : Env :=
  {| randbits := λ k, (k * 7 + 3)%nat;
     urandom := λ k, N.of_nat k;
     time_time := λ _, QArith_base.Qmake 1762250000123 1000;
     integrity := λ _, true |}.

(** The same environment with a schema that lets [users] hold two rows. *)
Definition strict_env : Env :=
  {| randbits := randbits sample_env;
     urandom := urandom sample_env;
     time_time := time_time sample_env;
     integrity := λ db, bool_decide (length (DB.users db) ≤ 2)%nat |}.

Definition admin_row : User.t :=
  {| User.id := "a0"; User.username := "admin"; User.email := EmptyString;
     User.password_hash := EmptyString; User.authorized_keys := EmptyString;
     User.force_init_pass := 0; User.is_active := 1;
     User.updated_by := "a0"; User.updated_at := 0 |}.

Definition start_world (db : DB.t) : World :=
  {| rand_pos := 0; uuid_pos := 0; clock_pos := 0; conn := db; disk := db |}.

Definition admin_db : DB.t :=
  {| DB.users := [admin_row]; DB.targets := []; DB.secrets := [];
     DB.target_secrets := []; DB.casbin_rule := [] |}.

Definition empty_db : DB.t :=
  {| DB.users := []; DB.targets := []; DB.secrets := [];
     DB.target_secrets := []; DB.casbin_rule := [] |}.

(** A number read off the characters of an identifier, to tell identifiers
    apart quickly. *)
Definition string_key (s : string) : N :=
  fold_left (λ acc c, (acc * 32 + N_of_ascii c mod 32)%N)
            (list_ascii_of_string s) 0%N.

(** The scenario of the spec: user u1 in login_group, binding b1 of target
    t1 and secret s1 in group apple, and u1 may exec on apple. *)
Definition u1_row : User.t :=
  {| User.id := "u1"; User.username := "user1"; User.email := EmptyString;
     User.password_hash := EmptyString; User.authorized_keys := EmptyString;
     User.force_init_pass := 0; User.is_active := 1;
     User.updated_by := "a0"; User.updated_at := 0 |}.

Definition t1_row (is_active : Z) : Target.t :=
  {| Target.id := "t1"; Target.name := "target-1";
     Target.hostname := "host-1.example.com"; Target.port := 22;
     Target.server_public_key := EmptyString; Target.description := EmptyString;
     Target.is_active := is_active; Target.updated_by := "a0";
     Target.updated_at := 0 |}.

Definition s1_row : Secret.t :=
  {| Secret.id := "s1"; Secret.name := "secret-1"; Secret.user := "root";
     Secret.password := Some "pw1"; Secret.private_key := None;
     Secret.public_key := None; Secret.is_active := 1;
     Secret.updated_by := "a0"; Secret.updated_at := 0 |}.

Definition b1_row : TargetSecret.t :=
  {| TargetSecret.id := "b1"; TargetSecret.target_id := "t1";
     TargetSecret.secret_id := "s1"; TargetSecret.is_active := 1;
     TargetSecret.updated_by := "a0"; TargetSecret.updated_at := 0 |}.

Definition scenario_store (target_active : Z) : IdentityStore :=
  {| store_users := {[ "u1" := u1_row ]};
     store_targets := {[ "t1" := t1_row target_active ]};
     store_secrets := {[ "s1" := s1_row ]};
     store_bindings := {[ "b1" := b1_row ]} |}.

Definition rule (ptype v0 v1 v2 : string) : CasbinRule.t :=
  {| CasbinRule.id := EmptyString; CasbinRule.ptype := ptype;
     CasbinRule.v0 := v0; CasbinRule.v1 := v1; CasbinRule.v2 := v2;
     CasbinRule.v3 := EmptyString; CasbinRule.v4 := EmptyString;
     CasbinRule.v5 := EmptyString;
     CasbinRule.updated_by := EmptyString; CasbinRule.updated_at := 0 |}.

Definition scenario_rules : list CasbinRule.t :=
  [rule "g1" "u1" "login_group" EmptyString;
   rule "g2" "b1" "apple" EmptyString;
   rule "p" "u1" "apple" "exec"].

(** ** The columns of the rows, besides id and timestamp *)

(** A 0/1 column. *)
Definition flag (z : Z) : Prop := z = 0 ∨ z = 1.

Definition user_columns (admin_id : string) (i : nat) (u : User.t) : Prop :=
  User.username u = "user" +:+ pretty i ∧
  User.email u = "user" +:+ pretty i +:+ "@example.com" ∧
  User.password_hash u = "hash" +:+ pretty i ∧
  User.authorized_keys u = json_dumps_singleton ("ssh-rsa key" +:+ pretty i) ∧
  flag (User.force_init_pass u) ∧ User.is_active u = 1 ∧
  User.updated_by u = admin_id.

Definition target_columns (users : list User.t) (i : nat) (t : Target.t) : Prop :=
  Target.name t = "target-" +:+ pretty i ∧
  Target.hostname t = "host-" +:+ pretty i +:+ ".example.com" ∧
  1024 ≤ Target.port t ≤ 65535 ∧
  Target.server_public_key t = "pubkey-" +:+ pretty i ∧
  Target.description t = "Target number " +:+ pretty i ∧
  flag (Target.is_active t) ∧
  Target.updated_by t ∈ User.id <$> users.

Definition secret_columns (users : list User.t) (i : nat) (s : Secret.t) : Prop :=
  Secret.name s = "secret-" +:+ pretty i ∧
  Secret.user s ∈ ["root"; "alice"; "bob"] ∧
  Secret.password s = Some ("pw" +:+ pretty i) ∧
  Secret.private_key s = None ∧ Secret.public_key s = None ∧
  flag (Secret.is_active s) ∧
  Secret.updated_by s ∈ User.id <$> users.

Definition binding_columns (users : list User.t) (b : TargetSecret.t) : Prop :=
  flag (TargetSecret.is_active b) ∧
  TargetSecret.updated_by b ∈ User.id <$> users.

Definition rule_columns (users : list User.t) (r : CasbinRule.t) : Prop :=
  CasbinRule.updated_by r ∈ User.id <$> users.

(** The ids of all rows written, table after table. *)
Definition written_ids (env : Env) (w : World) : list string :=
  (User.id <$> written_users env w) ++ (Target.id <$> written_targets env w) ++
  (Secret.id <$> written_secrets env w) ++
  (TargetSecret.id <$> written_target_secrets env w) ++
  (CasbinRule.id <$> written_casbin_rule env w).

(** The canonical text of a version-4 UUID: 36 characters, hyphens after
    8, 12, 16 and 20 hex digits, the version digit 4 and a variant digit
    8, 9, a or b. *)
Definition uuid_shape (s : string) : Prop :=
  String.length s = 36%nat ∧
  get 8 s = Some "-"%char ∧ get 13 s = Some "-"%char ∧
  get 18 s = Some "-"%char ∧ get 23 s = Some "-"%char ∧
  get 14 s = Some "4"%char ∧
  ∃ c, get 19 s = Some c ∧ c ∈ ["8"; "9"; "a"; "b"]%char.

(** What holds of the lists of a run, as far as the run built them:
    [Pu], [Pt], [Ps], [Pb] and [Pc] say something of the users, targets,
    secrets, bindings and rules. *)
Definition walk_facts (Pu : string → list User.t → Prop)
    (Pt : list User.t → list Target.t → Prop)
    (Ps : list User.t → list Secret.t → Prop)
    (Pb : list User.t → list TargetSecret.t → Prop)
    (Pc : list User.t → list TargetSecret.t → list CasbinRule.t → Prop)
    (a : string) (n : nat) (g : Generated) : Prop :=
  Pu a (g_users g) ∧
  ((1 ≤ n)%nat → Pt (g_users g) (g_targets g)) ∧
  ((2 ≤ n)%nat → Ps (g_users g) (g_secrets g)) ∧
  ((3 ≤ n)%nat → Pb (g_users g) (g_target_secrets g)) ∧
  ((4 ≤ n)%nat → Pc (g_users g) (g_target_secrets g) (g_casbin_rule g)).

(** * Proofs *)

(** ** Rules for script fragments *)

Lemma steps_refl w : steps 0 w w.
Proof. unfold steps. auto with lia. Qed.

Lemma steps_trans a b w1 w2 w3 :
  steps a w1 w2 → steps b w2 w3 → steps (a + b) w1 w3.
Proof. unfold steps. intros (?&?&?&?) (?&?&?&?). repeat split; try congruence; lia. Qed.

Section Rules.
Variable env : Env.

Lemma wp_ret {A} (a : A) w (Q : A → World → Prop) :
  Q a w → wp (mret a) w Q.
Proof. intros HQ. exists a, w. auto. Qed.

Lemma wp_bind {A B} (m : M A) (k : A → M B) w (Q : B → World → Prop) :
  wp m w (λ a w', wp (k a) w' Q) → wp (m ≫= k) w Q.
Proof.
  intros (a & w' & Hm & (b & w'' & Hk & HQ)). exists b, w''. split; [|done].
  unfold mbind, M_bind, bind. by rewrite Hm.
Qed.

Lemma wp_mono {A} (m : M A) w (Q Q' : A → World → Prop) :
  wp m w Q → (∀ a w', Q a w' → Q' a w') → wp m w Q'.
Proof. intros (a & w' & Hm & HQ) HQQ. exists a, w'. auto. Qed.

Lemma wp_uuid4 w (Q : string → World → Prop) :
  Q (uuid_at env (uuid_pos w)) (tick_uuid w) → wp (uuid4 env) w Q.
Proof. intros HQ. by eexists _, _. Qed.

Lemma wp_now_ts w (Q : Z → World → Prop) :
  Q (now_at env (clock_pos w)) (tick_clock w) → wp (now_ts env) w Q.
Proof. intros HQ. by eexists _, _. Qed.

Lemma wp_randbelow n w (Q : nat → World → Prop) :
  (0 < n)%nat → (∀ j, (j < n)%nat → Q j (tick_rand w)) → wp (randbelow env n) w Q.
Proof.
  intros Hn HQ. eexists _, _. split; [done|]. apply HQ.
  apply Nat.mod_upper_bound. lia.
Qed.

Lemma wp_randint a b w (Q : Z → World → Prop) :
  a ≤ b → (∀ r, a ≤ r ≤ b → Q r (tick_rand w)) → wp (randint env a b) w Q.
Proof.
  intros Hab HQ. unfold randint. case_decide; [lia|].
  apply wp_bind, wp_randbelow; [lia|]. intros j Hj. apply wp_ret, HQ. lia.
Qed.

Lemma wp_choice {A} (l : list A) w (Q : A → World → Prop) :
  l ≠ [] → (∀ x, x ∈ l → Q x (tick_rand w)) → wp (choice env l) w Q.
Proof.
  intros Hl HQ. unfold choice. destruct l as [|a l']; [done|].
  set (l := a :: l') in *.
  apply wp_bind, wp_randbelow; [simpl; lia|]. intros j Hj.
  destruct (lookup_lt_is_Some_2 l j Hj) as [x Hx]. rewrite Hx.
  apply wp_ret, HQ. by eapply list_elem_of_lookup_2.
Qed.

Lemma wp_for_in {A B} (I : list A → B → World → Prop) (xs : list A)
    (body : B → A → M B) acc w :
  I [] acc w →
  (∀ done x rest acc w, xs = done ++ x :: rest → I done acc w →
     wp (body acc x) w (I (done ++ [x]))) →
  wp (for_in xs acc body) w (I xs).
Proof.
  intros H0 Hstep.
  cut (∀ rest done acc w, xs = done ++ rest → I done acc w →
         wp (for_in rest acc body) w (I xs)).
  { intros Hgen. by apply (Hgen xs []). }
  induction rest as [|x rest IH]; intros done acc' w' Hxs HI; simpl.
  - rewrite app_nil_r in Hxs. subst. by apply (wp_ret (A:=B)).
  - apply (wp_bind (body acc' x) (λ acc'', for_in rest acc'' body)).
    eapply wp_mono; [by eapply Hstep|]. intros acc'' w'' HI'.
    apply (IH (done ++ [x])); [|done]. by rewrite <-app_assoc.
Qed.

(** One round of the selection loop keeps the multiset of candidates:
    the element taken out plus the shortened pool is the old pool. *)
Lemma sample_round {A} (pool : list A) j m x y :
  (j < m)%nat → pool !! j = Some x → pool !! (m - 1)%nat = Some y →
  x :: take (m - 1) (<[j := y]> pool) ≡ₚ take m pool.
Proof.
  intros Hj Hx Hy.
  replace m with (S (m - 1)) at 2 by lia.
  rewrite (take_S_r _ _ _ Hy).
  destruct (decide (j = m - 1)%nat) as [->|Hne].
  - rewrite take_insert_ge by lia. simplify_eq. apply Permutation_cons_append.
  - rewrite take_insert_lt by lia.
    assert (take (m - 1) pool !! j = Some x) as Hx'.
    { rewrite lookup_take_lt by lia. done. }
    rewrite (insert_take_drop (take (m - 1) pool)) by (eapply lookup_lt_Some; eauto).
    rewrite <-(take_drop_middle _ _ _ Hx') at 3.
    rewrite <-!app_assoc. simpl. solve_Permutation.
Qed.

Lemma wp_sample_loop {A} k : ∀ m (pool result : list A) w,
  (k ≤ m ≤ length pool)%nat →
  wp (sample_loop env k m pool result) w (λ res w',
    ∃ chosen, res = result ++ chosen ∧ length chosen = k ∧
              chosen ⊆+ take m pool ∧ steps 0 w w').
Proof.
  induction k as [|k IH]; intros m pool result w Hm; simpl.
  - apply wp_ret. exists []. rewrite app_nil_r. repeat split; try done.
    apply submseteq_nil_l.
  - apply wp_bind, wp_randbelow; [lia|]. intros j Hj.
    destruct (lookup_lt_is_Some_2 pool j ltac:(lia)) as [x Hx].
    destruct (lookup_lt_is_Some_2 pool (m - 1) ltac:(lia)) as [y Hy].
    rewrite Hx, Hy.
    eapply wp_mono; [apply IH; rewrite length_insert; lia|].
    intros res w' (chosen & -> & Hlen & Hsub & Hst).
    exists (x :: chosen). split; [by rewrite <-app_assoc|].
    split; [simpl; lia|]. split.
    + rewrite <-(sample_round pool j m x y) by done. by apply submseteq_skip.
    + destruct Hst as (?&?&?&?). by repeat split.
Qed.

(** [random.sample] returns [k] elements taken at pairwise different
    positions of the population. *)
Lemma wp_sample {A} (population : list A) k w (Q : list A → World → Prop) :
  (k ≤ length population)%nat →
  (∀ res w', length res = k → res ⊆+ population → steps 0 w w' → Q res w') →
  wp (sample env population k) w Q.
Proof.
  intros Hk HQ. unfold sample. case_decide; [|lia].
  eapply wp_mono; [by apply wp_sample_loop|].
  intros res w' (chosen & -> & Hlen & Hsub & Hst). simpl.
  apply HQ; auto. by rewrite firstn_all in Hsub.
Qed.
End Rules.

(** ** Stamped rows *)

Section Stamped.
Context (env : Env) {A : Type} `{Row A}.

Lemma stamped_nil u0 c0 : stamped env u0 c0 (@nil A).
Proof. intros i r Hi. by rewrite lookup_nil in Hi. Qed.

Lemma stamped_app u0 c0 (l1 l2 : list A) :
  stamped env u0 c0 l1 →
  stamped env (u0 + length l1) (c0 + length l1) l2 →
  stamped env u0 c0 (l1 ++ l2).
Proof.
  intros H1 H2 i r Hi. apply lookup_app_Some in Hi as [Hi|[Hge Hi]].
  - by apply H1.
  - apply H2 in Hi.
    replace (u0 + i)%nat with (u0 + length l1 + (i - length l1))%nat by lia.
    by replace (c0 + i)%nat with (c0 + length l1 + (i - length l1))%nat by lia.
Qed.

Lemma stamped_singleton u c (r : A) : stamp_ok env u c r → stamped env u c [r].
Proof.
  intros Hr [|i] r' Hi; simpl in Hi; [|by rewrite lookup_nil in Hi].
  simplify_eq. by rewrite !Nat.add_0_r.
Qed.

Lemma stamped_ids u0 c0 (rows : list A) :
  stamped env u0 c0 rows →
  row_id <$> rows = uuid_at env <$> seq u0 (length rows).
Proof.
  revert u0 c0. induction rows as [|r rows IH]; intros u0 c0 Hst; [done|].
  simpl. f_equal.
  - destruct (Hst 0%nat r eq_refl) as [Hid _]. by rewrite Nat.add_0_r in Hid.
  - apply (IH (S u0) (S c0)). intros i r' Hi.
    specialize (Hst (S i) r' Hi).
    by replace (S u0 + i)%nat with (u0 + S i)%nat by lia;
       replace (S c0 + i)%nat with (c0 + S i)%nat by lia.
Qed.

End Stamped.

Section Loops.
Context (env : Env) {A X : Type} `{Row A}.

(** A loop that appends one row per element. *)
Lemma wp_rows (P : X → A → Prop) (xs : list X)
    (body : list A → X → M (list A)) acc0 w0 :
  (∀ acc x w, x ∈ xs →
     wp (body acc x) w (λ acc' w',
       ∃ r, acc' = acc ++ [r] ∧ P x r ∧
            stamp_ok env (uuid_pos w) (clock_pos w) r ∧ steps 1 w w')) →
  wp (for_in xs acc0 body) w0 (λ acc' w',
    ∃ new, acc' = acc0 ++ new ∧ Forall2 P xs new ∧
           stamped env (uuid_pos w0) (clock_pos w0) new ∧
           steps (length xs) w0 w').
Proof.
  intros Hbody.
  apply (wp_for_in (λ done acc' w',
    ∃ new, acc' = acc0 ++ new ∧ Forall2 P done new ∧
           stamped env (uuid_pos w0) (clock_pos w0) new ∧
           steps (length done) w0 w')).
  - exists []. rewrite app_nil_r. split; [done|]. split; [constructor|].
    split; [apply stamped_nil | apply steps_refl].
  - intros done x rest acc w Hxs (new & -> & HF & Hst & Hsteps).
    eapply wp_mono; [apply Hbody; subst xs; set_solver|].
    intros acc' w' (r & -> & HP & Hr & H1).
    exists (new ++ [r]). rewrite <-app_assoc. split; [done|].
    split; [apply Forall2_app; auto|].
    split.
    + apply stamped_app; [done|]. apply stamped_singleton.
      destruct Hsteps as (Hu & Hc & _). rewrite Hu, Hc in Hr.
      by rewrite <-(Forall2_length _ _ _ HF).
    + rewrite length_app. simpl. by eapply steps_trans.
Qed.

(** A loop that appends a block of [n] rows per element. *)
Lemma wp_chunks (P : X → list A → Prop) (n : nat) (xs : list X)
    (body : list A → X → M (list A)) acc0 w0 :
  (∀ acc x w, x ∈ xs →
     wp (body acc x) w (λ acc' w',
       ∃ chunk, acc' = acc ++ chunk ∧ length chunk = n ∧ P x chunk ∧
                stamped env (uuid_pos w) (clock_pos w) chunk ∧ steps n w w')) →
  wp (for_in xs acc0 body) w0 (λ acc' w',
    ∃ chunks, acc' = acc0 ++ concat chunks ∧
              Forall2 (λ x c, P x c ∧ length c = n) xs chunks ∧
              stamped env (uuid_pos w0) (clock_pos w0) (concat chunks) ∧
              steps (length xs * n) w0 w').
Proof.
  intros Hbody.
  apply (wp_for_in (λ done acc' w',
    ∃ chunks, acc' = acc0 ++ concat chunks ∧
              Forall2 (λ x c, P x c ∧ length c = n) done chunks ∧
              stamped env (uuid_pos w0) (clock_pos w0) (concat chunks) ∧
              steps (length done * n) w0 w')).
  - exists []. simpl. rewrite app_nil_r. split; [done|]. split; [constructor|].
    split; [apply stamped_nil | apply steps_refl].
  - intros done x rest acc w Hxs (chunks & -> & HF & Hst & Hsteps).
    eapply wp_mono; [apply Hbody; subst xs; set_solver|].
    intros acc' w' (chunk & -> & Hlen & HP & Hc & Hn).
    assert (length (concat chunks) = (length done * n)%nat) as Hcat.
    { clear -HF. induction HF as [|x' c l k [_ Hc] _ IH]; [done|].
      simpl. rewrite length_app. lia. }
    exists (chunks ++ [chunk]). rewrite concat_app. simpl.
    rewrite app_nil_r, <-app_assoc. split; [done|].
    split; [apply Forall2_app; auto|].
    split.
    + apply stamped_app; [done|].
      destruct Hsteps as (Hu & Hck & _). rewrite Hu, Hck in Hc.
      by rewrite Hcat.
    + rewrite length_app. simpl.
      replace ((length done + 1) * n)%nat with (length done * n + n)%nat by lia.
      by eapply steps_trans.
Qed.
End Loops.

(** ** The parts of [generate()] *)

Lemma steps_one w w' :
  uuid_pos w' = S (uuid_pos w) → clock_pos w' = S (clock_pos w) →
  conn w' = conn w → disk w' = disk w → steps 1 w w'.
Proof. unfold steps. intros -> -> -> ->. repeat split; lia. Qed.

Lemma ms_stamp_intro env c off :
  0 ≤ off ≤ 1000 → ms_stamp env c (now_at env c * 1000 + off).
Proof. intros Hoff. by exists off. Qed.

Section Parts.
Variable env : Env.

Ltac wp_call :=
  first
    [ apply wp_uuid4
    | apply wp_now_ts
    | apply wp_randint; [lia | intros ? ?]
    | apply wp_choice; [done | intros ? ?] ].

Ltac wp_body := repeat (apply wp_bind; wp_call); apply wp_ret.

Ltac wp_row :=
  eexists; split; [reflexivity|]; split;
    [ | split; [split; [reflexivity | simpl; by apply ms_stamp_intro]
               | by apply steps_one] ].

Lemma gen_users_spec admin_id w :
  wp (gen_users env admin_id) w (λ users w',
    Forall2 (user_row admin_id) (range 1 6) users ∧
    stamped env (uuid_pos w) (clock_pos w) users ∧ steps 5 w w').
Proof.
  eapply wp_mono; [apply (wp_rows env (user_row admin_id))|].
  - intros acc i w1 _. wp_body. wp_row. done.
  - by intros users w' (new & -> & ? & ? & ?).
Qed.

Lemma gen_targets_spec users w :
  users ≠ [] →
  wp (gen_targets env users) w (λ targets w',
    Forall2 target_row (range 1 201) targets ∧
    stamped env (uuid_pos w) (clock_pos w) targets ∧ steps 200 w w').
Proof.
  intros Hne. eapply wp_mono; [apply (wp_rows env target_row)|].
  - intros acc i w1 _. wp_body. wp_row. done.
  - by intros targets w' (new & -> & ? & ? & ?).
Qed.

Lemma gen_secrets_spec users w :
  users ≠ [] →
  wp (gen_secrets env users) w (λ secrets w',
    Forall2 secret_row (range 1 21) secrets ∧
    stamped env (uuid_pos w) (clock_pos w) secrets ∧ steps 20 w w').
Proof.
  intros Hne. eapply wp_mono; [apply (wp_rows env secret_row)|].
  - intros acc i w1 _. wp_body. wp_row. done.
  - by intros secrets w' (new & -> & ? & ? & ?).
Qed.

Lemma gen_target_secrets_spec users targets secrets w :
  users ≠ [] → (3 ≤ length secrets)%nat →
  wp (gen_target_secrets env users targets secrets) w (λ target_secrets w',
    ∃ chunks, target_secrets = concat chunks ∧
      Forall2 (λ t c, binding_row secrets t c ∧ length c = 3%nat) targets chunks ∧
      stamped env (uuid_pos w) (clock_pos w) target_secrets ∧
      steps (length targets * 3) w w').
Proof.
  intros Hne Hlen.
  eapply wp_mono; [apply (wp_chunks env (binding_row secrets) 3)|].
  - intros acc t w1 _. apply wp_bind, wp_sample; [done|].
    intros chosen w2 Hchosen Hsub Hw2.
    eapply wp_mono.
    { apply (wp_rows env (λ s b, TargetSecret.target_id b = Target.id t ∧
                                 TargetSecret.secret_id b = Secret.id s)).
      intros acc' s w3 _. wp_body. wp_row. done. }
    intros acc' w3 (new & -> & HF & Hst & Hsteps).
    exists new. split; [done|].
    split; [pose proof (Forall2_length _ _ _ HF); lia|].
    split; [by exists chosen|].
    pose proof Hw2 as (Hu & Hc & _). rewrite !Nat.add_0_r in Hu, Hc.
    rewrite Hu, Hc in Hst. split; [done|].
    rewrite Hchosen in Hsteps. by apply (steps_trans 0 3 w1 w2 w3).
  - intros ts w' (chunks & -> & ? & ? & ?). by exists chunks.
Qed.

Lemma gen_rules_g2_spec users target_secrets casbin_rule w :
  users ≠ [] → (100 ≤ length target_secrets)%nat →
  wp (gen_rules_g2 env users target_secrets casbin_rule) w (λ casbin_rule' w',
    ∃ chunks, casbin_rule' = casbin_rule ++ concat chunks ∧
      Forall2 (λ g c, g2_block target_secrets g c ∧ length c = 100%nat)
              group_names chunks ∧
      stamped env (uuid_pos w) (clock_pos w) (concat chunks) ∧
      steps 300 w w').
Proof.
  intros Hne Hlen.
  eapply wp_mono; [apply (wp_chunks env (g2_block target_secrets) 100)|].
  - intros acc g w1 _. apply wp_bind, wp_sample; [done|].
    intros chosen w2 Hchosen Hsub Hw2.
    eapply wp_mono.
    { apply (wp_rows env (g2_rule g)).
      intros acc' t w3 _. wp_body. wp_row. done. }
    intros acc' w3 (new & -> & HF & Hst & Hsteps).
    exists new. split; [done|].
    split; [pose proof (Forall2_length _ _ _ HF); lia|].
    split; [by exists chosen|].
    pose proof Hw2 as (Hu & Hc & _). rewrite !Nat.add_0_r in Hu, Hc.
    rewrite Hu, Hc in Hst. split; [done|].
    rewrite Hchosen in Hsteps. by apply (steps_trans 0 100 w1 w2 w3).
  - intros cr w' (chunks & -> & ? & ? & ?). by exists chunks.
Qed.

Lemma gen_rules_g1_spec users casbin_rule w :
  users ≠ [] →
  wp (gen_rules_g1 env users casbin_rule) w (λ casbin_rule' w',
    ∃ new, casbin_rule' = casbin_rule ++ new ∧ Forall2 g1_rule users new ∧
      stamped env (uuid_pos w) (clock_pos w) new ∧ steps (length users) w w').
Proof.
  intros Hne. apply (wp_rows env g1_rule).
  intros acc u w1 _. wp_body. wp_row. done.
Qed.

Lemma gen_rules_p_spec users casbin_rule w :
  users ≠ [] →
  wp (gen_rules_p env users casbin_rule) w (λ casbin_rule' w',
    ∃ new, casbin_rule' = casbin_rule ++ new ∧ Forall2 p_rule users new ∧
      stamped env (uuid_pos w) (clock_pos w) new ∧ steps (length users) w w').
Proof.
  intros Hne. apply (wp_rows env p_rule).
  intros acc u w1 _. wp_body. wp_row. done.
Qed.
End Parts.

(** ** The outcome of a run *)

Lemma bind_ok {A B} (m : M A) (k : A → M B) w a w' :
  m w = (Ok a, w') → (m ≫= k) w = k a w'.
Proof. intros Hm. unfold mbind, M_bind, bind. by rewrite Hm. Qed.

Lemma bind_raise {A B} (m : M A) (k : A → M B) w e w' :
  m w = (Raise e, w') → (m ≫= k) w = (Raise e, w').
Proof. intros Hm. unfold mbind, M_bind, bind. by rewrite Hm. Qed.

Lemma set_conn_set_conn db1 db2 w : set_conn db1 (set_conn db2 w) = set_conn db1 w.
Proof. done. Qed.

Lemma set_conn_conn w : set_conn (conn w) w = w.
Proof. by destruct w. Qed.

(** [executemany] inserts a prefix of the rows: all of them when it returns,
    those before the refused row when it raises. *)
Lemma executemany_outcome env {A} (ins : list A → DB.t → DB.t) (rows : list A) :
  (∀ db, ins [] db = db) →
  (∀ l1 l2 db, ins (l1 ++ l2) db = ins l2 (ins l1 db)) →
  ∀ w, ∃ m, (m ≤ length rows)%nat ∧
    executemany env ins rows w =
      ((if decide (m = length rows) then Ok tt else Raise IntegrityError),
       set_conn (ins (take m rows) (conn w)) w) ∧
    ((∀ db, integrity env db = true) → m = length rows).
Proof.
  intros Hnil Happ. unfold executemany.
  induction rows as [|row rows IH]; intros w.
  - exists 0%nat. simpl. split; [done|]. split; [|done].
    by rewrite Hnil, set_conn_conn.
  - simpl. destruct (integrity env (ins [row] (conn w))) eqn:Hi.
    + destruct (IH (set_conn (ins [row] (conn w)) w)) as (m & Hm & Hrun & Hall).
      exists (S m). split; [lia|]. split.
      * unfold bind, execute at 1. rewrite Hi. fold (bind (A:=unit) (B:=unit)).
        rewrite Hrun. simpl. rewrite set_conn_set_conn.
        rewrite <-(Happ [row] (take m rows)). simpl.
        repeat case_decide; try done; lia.
      * intros Hacc. by rewrite (Hall Hacc).
    + exists 0%nat. split; [lia|]. split.
      * unfold bind, execute at 1. rewrite Hi. simpl.
        by rewrite Hnil, set_conn_conn.
      * intros Hacc. by rewrite Hacc in Hi.
Qed.

Lemma insert_users_nil db : insert_users [] db = db.
Proof. destruct db. unfold insert_users. simpl. by rewrite app_nil_r. Qed.

Lemma insert_users_app l1 l2 db :
  insert_users (l1 ++ l2) db = insert_users l2 (insert_users l1 db).
Proof. unfold insert_users. simpl. by rewrite app_assoc. Qed.

Lemma insert_targets_nil db : insert_targets [] db = db.
Proof. destruct db. unfold insert_targets. simpl. by rewrite app_nil_r. Qed.

Lemma insert_targets_app l1 l2 db :
  insert_targets (l1 ++ l2) db = insert_targets l2 (insert_targets l1 db).
Proof. unfold insert_targets. simpl. by rewrite app_assoc. Qed.

Lemma insert_secrets_nil db : insert_secrets [] db = db.
Proof. destruct db. unfold insert_secrets. simpl. by rewrite app_nil_r. Qed.

Lemma insert_secrets_app l1 l2 db :
  insert_secrets (l1 ++ l2) db = insert_secrets l2 (insert_secrets l1 db).
Proof. unfold insert_secrets. simpl. by rewrite app_assoc. Qed.

Lemma insert_target_secrets_nil db : insert_target_secrets [] db = db.
Proof. destruct db. unfold insert_target_secrets. simpl. by rewrite app_nil_r. Qed.

Lemma insert_target_secrets_app l1 l2 db :
  insert_target_secrets (l1 ++ l2) db
  = insert_target_secrets l2 (insert_target_secrets l1 db).
Proof. unfold insert_target_secrets. simpl. by rewrite app_assoc. Qed.

Lemma insert_casbin_rule_nil db : insert_casbin_rule [] db = db.
Proof. destruct db. unfold insert_casbin_rule. simpl. by rewrite app_nil_r. Qed.

Lemma insert_casbin_rule_app l1 l2 db :
  insert_casbin_rule (l1 ++ l2) db
  = insert_casbin_rule l2 (insert_casbin_rule l1 db).
Proof. unfold insert_casbin_rule. simpl. by rewrite app_assoc. Qed.

Lemma Forall2_range_length {A} (P : nat → A → Prop) a b (l : list A) :
  Forall2 P (range a b) l → length l = (b - a)%nat.
Proof. intros HF%Forall2_length. unfold range in HF. by rewrite length_seq in HF. Qed.

Lemma concat_length_const {A B} (P : B → list A → Prop) n xs (chunks : list (list A)) :
  Forall2 (λ x c, P x c ∧ length c = n) xs chunks →
  length (concat chunks) = (length xs * n)%nat.
Proof.
  induction 1 as [|x c xs chunks [_ Hc] _ IH]; [done|].
  simpl. rewrite length_app. lia.
Qed.

Lemma generate_no_admin env w :
  select_admin_id (disk w) = None →
  generate env w = (Raise TypeError, set_conn (disk w) w).
Proof.
  intros Ha. unfold generate.
  rewrite (bind_ok _ _ w tt (set_conn (disk w) w)) by done.
  apply bind_raise. unfold fetch_admin_id. simpl. by rewrite Ha.
Qed.

Ltac inserted_eq :=
  unfold inserted, table_part, insert_users, insert_targets, insert_secrets,
    insert_target_secrets, insert_casbin_rule;
  simpl; rewrite ?app_nil_r; done.

Lemma inserted_0 g db : inserted 0 0 g db = db.
Proof. destruct db. inserted_eq. Qed.

Lemma inserted_users_part g m db :
  insert_users (take m (g_users g)) db = inserted 0 m g db.
Proof. inserted_eq. Qed.

Lemma inserted_users g db : insert_users (g_users g) db = inserted 1 0 g db.
Proof. inserted_eq. Qed.

Lemma inserted_targets_part g m db :
  insert_targets (take m (g_targets g)) (inserted 1 0 g db) = inserted 1 m g db.
Proof. inserted_eq. Qed.

Lemma inserted_targets g db :
  insert_targets (g_targets g) (inserted 1 0 g db) = inserted 2 0 g db.
Proof. inserted_eq. Qed.

Lemma inserted_secrets_part g m db :
  insert_secrets (take m (g_secrets g)) (inserted 2 0 g db) = inserted 2 m g db.
Proof. inserted_eq. Qed.

Lemma inserted_secrets g db :
  insert_secrets (g_secrets g) (inserted 2 0 g db) = inserted 3 0 g db.
Proof. inserted_eq. Qed.

Lemma inserted_target_secrets_part g m db :
  insert_target_secrets (take m (g_target_secrets g)) (inserted 3 0 g db)
  = inserted 3 m g db.
Proof. inserted_eq. Qed.

Lemma inserted_target_secrets g db :
  insert_target_secrets (g_target_secrets g) (inserted 3 0 g db) = inserted 4 0 g db.
Proof. inserted_eq. Qed.

Lemma inserted_casbin_rule_part g m db :
  insert_casbin_rule (take m (g_casbin_rule g)) (inserted 4 0 g db)
  = inserted 4 m g db.
Proof. inserted_eq. Qed.

Lemma inserted_casbin_rule g m db :
  insert_casbin_rule (g_casbin_rule g) (inserted 4 0 g db) = inserted 5 m g db.
Proof. inserted_eq. Qed.

Ltac run_ok H := rewrite (bind_ok _ _ _ _ _ H); cbv beta.
Ltac run_raise H := rewrite (bind_raise _ _ _ _ _ H).

Lemma generate_outcome env w a :
  select_admin_id (disk w) = Some a →
  ∃ g n m w', good_run env w a (S n) g ∧ (n ≤ 5)%nat ∧
    generate env w = (outcome n, w') ∧
    conn w' = inserted n m g (disk w) ∧
    disk w' = (if decide (n = 5)%nat then inserted 5 0 g (disk w) else disk w) ∧
    ((∀ db, integrity env db = true) → n = 5%nat).
Proof.
  intros Ha.
  assert (connect w = (Ok tt, set_conn (disk w) w)) as Hc by done.
  assert (fetch_admin_id (set_conn (disk w) w) = (Ok a, set_conn (disk w) w)) as Hf.
  { unfold fetch_admin_id. simpl. by rewrite Ha. }
  (* 3.1 *)
  destruct (gen_users_spec env a (set_conn (disk w) w))
    as (us & w1 & Hus & HFus & Hstus & (Hu1 & Hc1 & Hconn1 & Hdisk1)).
  simpl in Hstus, Hu1, Hc1, Hconn1, Hdisk1.
  assert (length us = 5%nat) as Hlus by (by apply Forall2_range_length in HFus).
  assert (us ≠ []) as Hne by (intros ->; done).
  destruct (executemany_outcome env insert_users us
              insert_users_nil insert_users_app w1) as (m1 & _ & He1 & Hall1).
  rewrite Hconn1 in He1.
  destruct (decide (m1 = length us)) as [Hm1|Hm1]; cycle 1.
  { exists {| g_users := us; g_targets := []; g_secrets := [];
              g_target_secrets := []; g_casbin_rule := [] |}, 0%nat, m1.
    eexists. split; [unfold good_run; split_and!; intros; try lia; by split|].
    split; [lia|]. split.
    { unfold generate. run_ok Hc. run_ok Hf. run_ok Hus. by run_raise He1. }
    split; [by rewrite <-inserted_users_part|].
    split; [done|]. intros Hall. by apply Hall1 in Hall. }
  rewrite Hm1, firstn_all in He1. clear m1 Hm1 Hall1.
  (* 3.2 *)
  destruct (gen_targets_spec env us (set_conn (insert_users us (disk w)) w1) Hne)
    as (tg & w2 & Htg & HFtg & Hsttg & (Hu2 & Hc2 & Hconn2 & Hdisk2)).
  cbn [set_conn conn disk uuid_pos clock_pos] in Hsttg, Hu2, Hc2, Hconn2, Hdisk2.
  rewrite Hu1, Hc1 in Hsttg. rewrite Hu1 in Hu2. rewrite Hc1 in Hc2.
  rewrite Hdisk1 in Hdisk2.
  assert (length tg = 200%nat) as Hltg by (by apply Forall2_range_length in HFtg).
  destruct (executemany_outcome env insert_targets tg
              insert_targets_nil insert_targets_app w2) as (m2 & _ & He2 & Hall2).
  rewrite Hconn2 in He2.
  destruct (decide (m2 = length tg)) as [Hm2|Hm2]; cycle 1.
  { exists {| g_users := us; g_targets := tg; g_secrets := [];
              g_target_secrets := []; g_casbin_rule := [] |}, 1%nat, m2.
    eexists. split; [unfold good_run; split_and!; intros; try lia; by split|].
    split; [lia|]. split.
    { unfold generate. run_ok Hc. run_ok Hf. run_ok Hus. run_ok He1. run_ok Htg.
      by run_raise He2. }
    split; [by rewrite <-inserted_targets_part, <-inserted_users|].
    split; [done|]. intros Hall. by apply Hall2 in Hall. }
  rewrite Hm2, firstn_all in He2. clear m2 Hm2 Hall2.
  (* 3.3 *)
  destruct (gen_secrets_spec env us
              (set_conn (insert_targets tg (insert_users us (disk w))) w2) Hne)
    as (se & w3 & Hse & HFse & Hstse & (Hu3 & Hc3 & Hconn3 & Hdisk3)).
  cbn [set_conn conn disk uuid_pos clock_pos] in Hstse, Hu3, Hc3, Hconn3, Hdisk3.
  rewrite Hu2, Hc2 in Hstse. rewrite Hu2 in Hu3. rewrite Hc2 in Hc3.
  rewrite Hdisk2 in Hdisk3.
  replace (uuid_pos w + 5 + 200)%nat with (uuid_pos w + 205)%nat in * by lia.
  replace (clock_pos w + 5 + 200)%nat with (clock_pos w + 205)%nat in * by lia.
  assert (length se = 20%nat) as Hlse by (by apply Forall2_range_length in HFse).
  destruct (executemany_outcome env insert_secrets se
              insert_secrets_nil insert_secrets_app w3) as (m3 & _ & He3 & Hall3).
  rewrite Hconn3 in He3.
  destruct (decide (m3 = length se)) as [Hm3|Hm3]; cycle 1.
  { exists {| g_users := us; g_targets := tg; g_secrets := se;
              g_target_secrets := []; g_casbin_rule := [] |}, 2%nat, m3.
    eexists. split; [unfold good_run; split_and!; intros; try lia; by split|].
    split; [lia|]. split.
    { unfold generate. run_ok Hc. run_ok Hf. run_ok Hus. run_ok He1. run_ok Htg.
      run_ok He2. run_ok Hse. by run_raise He3. }
    split; [by rewrite <-inserted_secrets_part, <-inserted_targets, <-inserted_users|].
    split; [done|]. intros Hall. by apply Hall3 in Hall. }
  rewrite Hm3, firstn_all in He3. clear m3 Hm3 Hall3.
  (* 3.4 *)
  destruct (gen_target_secrets_spec env us tg se
              (set_conn (insert_secrets se
                 (insert_targets tg (insert_users us (disk w)))) w3) Hne
              ltac:(lia))
    as (ts & w4 & Hts & (chunks & Hcat & HFts & Hstts & (Hu4 & Hc4 & Hconn4 & Hdisk4))).
  cbn [set_conn conn disk uuid_pos clock_pos] in Hstts, Hu4, Hc4, Hconn4, Hdisk4.
  rewrite Hu3, Hc3 in Hstts. rewrite Hu3 in Hu4. rewrite Hc3 in Hc4.
  rewrite Hdisk3 in Hdisk4. rewrite Hltg in Hu4, Hc4.
  replace (uuid_pos w + 205 + 20)%nat with (uuid_pos w + 225)%nat in * by lia.
  replace (clock_pos w + 205 + 20)%nat with (clock_pos w + 225)%nat in * by lia.
  assert (length ts = 600%nat) as Hlts.
  { rewrite Hcat, (concat_length_const _ _ _ _ HFts). lia. }
  assert (target_secrets_ok env w
            {| g_users := us; g_targets := tg; g_secrets := se;
               g_target_secrets := ts; g_casbin_rule := [] |}) as Hbok.
  { split; [by exists chunks|by split]. }
  destruct (executemany_outcome env insert_target_secrets ts
              insert_target_secrets_nil insert_target_secrets_app w4)
    as (m4 & _ & He4 & Hall4).
  rewrite Hconn4 in He4.
  destruct (decide (m4 = length ts)) as [Hm4|Hm4]; cycle 1.
  { exists {| g_users := us; g_targets := tg; g_secrets := se;
              g_target_secrets := ts; g_casbin_rule := [] |}, 3%nat, m4.
    eexists. split; [unfold good_run; split_and!; intros; try lia; try done; by split|].
    split; [lia|]. split.
    { unfold generate. run_ok Hc. run_ok Hf. run_ok Hus. run_ok He1. run_ok Htg.
      run_ok He2. run_ok Hse. run_ok He3. run_ok Hts. by run_raise He4. }
    split; [by rewrite <-inserted_target_secrets_part, <-inserted_secrets,
                       <-inserted_targets, <-inserted_users|].
    split; [done|]. intros Hall. by apply Hall4 in Hall. }
  rewrite Hm4, firstn_all in He4. clear m4 Hm4 Hall4.
  (* the rules *)
  destruct (gen_rules_g2_spec env us ts []
              (set_conn (insert_target_secrets ts (insert_secrets se
                 (insert_targets tg (insert_users us (disk w))))) w4) Hne
              ltac:(lia))
    as (cr1 & w5 & Hcr1 & (blocks & Hcr1eq & HFg2 & Hstg2 & (Hu5 & Hc5 & Hconn5 & Hdisk5))).
  cbn [set_conn conn disk uuid_pos clock_pos] in Hstg2, Hu5, Hc5, Hconn5, Hdisk5.
  destruct (gen_rules_g1_spec env us cr1 w5 Hne)
    as (cr2 & w6 & Hcr2 & (g1s & Hcr2eq & HFg1 & Hstg1 & (Hu6 & Hc6 & Hconn6 & Hdisk6))).
  destruct (gen_rules_p_spec env us cr2 w6 Hne)
    as (cr3 & w7 & Hcr3 & (ps & Hcr3eq & HFp & Hstp & (Hu7 & Hc7 & Hconn7 & Hdisk7))).
  assert (length (concat blocks) = 300%nat) as Hlg2.
  { by rewrite (concat_length_const _ _ _ _ HFg2). }
  assert (length g1s = 5%nat) as Hlg1.
  { by rewrite <-(Forall2_length _ _ _ HFg1). }
  assert (length ps = 5%nat) as Hlp.
  { by rewrite <-(Forall2_length _ _ _ HFp). }
  assert (cr3 = concat blocks ++ g1s ++ ps) as Hcr.
  { subst cr3 cr2 cr1. simpl. by rewrite <-app_assoc. }
  assert (length cr3 = 310%nat) as Hlcr.
  { rewrite Hcr, !length_app. lia. }
  assert (stamped env (uuid_pos w + 825) (clock_pos w + 825) cr3) as Hstcr.
  { rewrite Hcr. rewrite Hu4, Hc4 in Hstg2.
    replace (uuid_pos w + 225 + 200 * 3)%nat with (uuid_pos w + 825)%nat in * by lia.
    replace (clock_pos w + 225 + 200 * 3)%nat with (clock_pos w + 825)%nat in * by lia.
    apply stamped_app; [done|]. rewrite Hlg2.
    rewrite Hu5, Hc5, Hu4, Hc4 in Hstg1.
    replace (uuid_pos w + 225 + 200 * 3 + 300)%nat
      with (uuid_pos w + 825 + 300)%nat in * by lia.
    replace (clock_pos w + 225 + 200 * 3 + 300)%nat
      with (clock_pos w + 825 + 300)%nat in * by lia.
    apply stamped_app; [done|]. rewrite Hlg1.
    rewrite Hu6, Hc6, Hu5, Hc5, Hu4, Hc4, Hlus in Hstp.
    replace (uuid_pos w + 225 + 200 * 3 + 300 + 5)%nat
      with (uuid_pos w + 825 + 300 + 5)%nat in * by lia.
    by replace (clock_pos w + 225 + 200 * 3 + 300 + 5)%nat
      with (clock_pos w + 825 + 300 + 5)%nat in * by lia. }
  assert (conn w7 = insert_target_secrets ts (insert_secrets se
            (insert_targets tg (insert_users us (disk w))))) as Hconn.
  { by rewrite Hconn7, Hconn6, Hconn5. }
  assert (good_run env w a 6
            {| g_users := us; g_targets := tg; g_secrets := se;
               g_target_secrets := ts; g_casbin_rule := cr3 |}) as Hgood.
  { unfold good_run; split_and!; intros _; try by split.
    - split; [by exists chunks|by split].
    - split; [by exists blocks, g1s, ps|by split]. }
  destruct (executemany_outcome env insert_casbin_rule cr3
              insert_casbin_rule_nil insert_casbin_rule_app w7)
    as (m5 & _ & He5 & Hall5).
  rewrite Hconn in He5.
  destruct (decide (m5 = length cr3)) as [Hm5|Hm5]; cycle 1.
  { exists {| g_users := us; g_targets := tg; g_secrets := se;
              g_target_secrets := ts; g_casbin_rule := cr3 |}, 4%nat, m5.
    eexists. split.
    { destruct Hgood as (?&?&?&?&?).
      unfold good_run; split_and!; intros _; auto with lia. }
    split; [lia|]. split.
    { unfold generate. run_ok Hc. run_ok Hf. run_ok Hus. run_ok He1. run_ok Htg.
      run_ok He2. run_ok Hse. run_ok He3. run_ok Hts. run_ok He4.
      run_ok Hcr1. run_ok Hcr2. run_ok Hcr3. by run_raise He5. }
    split; [by rewrite <-inserted_casbin_rule_part, <-inserted_target_secrets,
                       <-inserted_secrets, <-inserted_targets, <-inserted_users|].
    split; [simpl; by rewrite Hdisk7, Hdisk6, Hdisk5|].
    intros Hall. by apply Hall5 in Hall. }
  rewrite Hm5, firstn_all in He5. clear m5 Hm5 Hall5.
  exists {| g_users := us; g_targets := tg; g_secrets := se;
            g_target_secrets := ts; g_casbin_rule := cr3 |}, 5%nat, 0%nat.
  eexists. split; [done|]. split; [lia|]. split.
  { unfold generate. run_ok Hc. run_ok Hf. run_ok Hus. run_ok He1. run_ok Htg.
    run_ok He2. run_ok Hse. run_ok He3. run_ok Hts. run_ok He4.
    run_ok Hcr1. run_ok Hcr2. run_ok Hcr3. run_ok He5. reflexivity. }
  cbn [set_conn conn disk uuid_pos clock_pos].
  by rewrite <-(inserted_casbin_rule _ 0), <-inserted_target_secrets,
             <-inserted_secrets, <-inserted_targets, <-inserted_users.
Qed.

(** ** The rows written *)

Lemma written_no_admin env w :
  select_admin_id (disk w) = None →
  written_users env w = [] ∧ written_targets env w = [] ∧
  written_secrets env w = [] ∧ written_target_secrets env w = [] ∧
  written_casbin_rule env w = [].
Proof.
  intros Ha.
  unfold written_users, written_targets, written_secrets,
    written_target_secrets, written_casbin_rule, run_conn.
  rewrite (generate_no_admin env w Ha). simpl.
  by rewrite !drop_all.
Qed.

Lemma written_admin env w a :
  select_admin_id (disk w) = Some a →
  ∃ g n m, good_run env w a (S n) g ∧ (n ≤ 5)%nat ∧
    (generate env w).1 = outcome n ∧
    written_users env w = table_part 1 n m (g_users g) ∧
    written_targets env w = table_part 2 n m (g_targets g) ∧
    written_secrets env w = table_part 3 n m (g_secrets g) ∧
    written_target_secrets env w = table_part 4 n m (g_target_secrets g) ∧
    written_casbin_rule env w = table_part 5 n m (g_casbin_rule g).
Proof.
  intros Ha.
  destruct (generate_outcome env w a Ha)
    as (g & n & m & w' & Hg & Hn & Hrun & Hconn & _ & _).
  exists g, n, m. split; [done|]. split; [done|].
  unfold written_users, written_targets, written_secrets,
    written_target_secrets, written_casbin_rule, run_conn.
  rewrite Hrun. simpl. rewrite Hconn. simpl.
  by rewrite !drop_app_length.
Qed.

Lemma table_part_full {A} k n m (l : list A) :
  (k ≤ n)%nat → table_part k n m l = l.
Proof. intros Hk. unfold table_part. by case_decide. Qed.

(** A table holds nothing of a list that was not built yet, and a prefix of
    a list that was. *)
Lemma table_part_cases {A} k n m (l : list A) :
  table_part k n m l = [] ∨
  (k ≤ S n)%nat ∧ ∃ m', table_part k n m l = take m' l.
Proof.
  unfold table_part. repeat case_decide; [right|right|by left].
  - split; [lia|]. exists (length l). by rewrite firstn_all.
  - split; [lia|]. by exists m.
Qed.

Lemma written_users_cases env w :
  written_users env w = [] ∨
  ∃ a g m, select_admin_id (disk w) = Some a ∧ users_ok env w a g ∧
           written_users env w = take m (g_users g).
Proof.
  destruct (select_admin_id (disk w)) as [a|] eqn:Ha;
    [|left; by apply written_no_admin].
  destruct (written_admin env w a Ha) as (g & n & m & Hg & Hn & _ & -> & _).
  destruct (table_part_cases 1 n m (g_users g)) as [->|(Hk & m' & ->)]; [by left|].
  right. exists a, g, m'. split; [done|]. split; [|done].
  destruct Hg as (Hgu & _). apply Hgu. lia.
Qed.

Lemma written_targets_cases env w :
  written_targets env w = [] ∨
  ∃ g m, targets_ok env w g ∧ written_targets env w = take m (g_targets g).
Proof.
  destruct (select_admin_id (disk w)) as [a|] eqn:Ha;
    [|left; by apply written_no_admin].
  destruct (written_admin env w a Ha) as (g & n & m & Hg & Hn & _ & _ & -> & _).
  destruct (table_part_cases 2 n m (g_targets g)) as [->|(Hk & m' & ->)]; [by left|].
  right. exists g, m'. split; [|done].
  destruct Hg as (_ & Hgt & _). apply Hgt. lia.
Qed.

Lemma written_secrets_cases env w :
  written_secrets env w = [] ∨
  ∃ g m, secrets_ok env w g ∧ written_secrets env w = take m (g_secrets g).
Proof.
  destruct (select_admin_id (disk w)) as [a|] eqn:Ha;
    [|left; by apply written_no_admin].
  destruct (written_admin env w a Ha) as (g & n & m & Hg & Hn & _ & _ & _ & -> & _).
  destruct (table_part_cases 3 n m (g_secrets g)) as [->|(Hk & m' & ->)]; [by left|].
  right. exists g, m'. split; [|done].
  destruct Hg as (_ & _ & Hgs & _). apply Hgs. lia.
Qed.


(** Rules are only written once users and bindings are written in full. *)
Lemma written_casbin_rule_cases env w :
  written_casbin_rule env w = [] ∨
  ∃ a g m, users_ok env w a g ∧ target_secrets_ok env w g ∧
           casbin_rule_ok env w g ∧
           written_casbin_rule env w = take m (g_casbin_rule g) ∧
           written_users env w = g_users g ∧
           written_target_secrets env w = g_target_secrets g.
Proof.
  destruct (select_admin_id (disk w)) as [a|] eqn:Ha;
    [|left; by apply written_no_admin].
  destruct (written_admin env w a Ha)
    as (g & n & m & Hg & Hn & _ & Hus & _ & _ & Hts & ->).
  destruct (table_part_cases 5 n m (g_casbin_rule g)) as [->|(Hk & m' & ->)];
    [by left|].
  right. exists a, g, m'. destruct Hg as (Hgu & _ & _ & Hgb & Hgc).
  split; [apply Hgu; lia|]. split; [apply Hgb; lia|]. split; [apply Hgc; lia|].
  split; [done|].
  rewrite Hus, Hts. by rewrite !table_part_full by lia.
Qed.

(** ** Lists *)

Lemma Forall2_Forall_source {A B} (P : A → B → Prop) (xs : list A) (ys : list B) :
  Forall2 P xs ys → Forall (λ y, ∃ x, x ∈ xs ∧ P x y) ys.
Proof.
  induction 1 as [|x y xs ys HP _ IH]; constructor.
  - exists x. split; [left|done].
  - eapply Forall_impl; [exact IH|]. intros y' (x' & ? & ?).
    exists x'. split; [by right|done].
Qed.

Lemma Forall2_concat_source {A B} (P : A → list B → Prop) (xs : list A)
    (chunks : list (list B)) :
  Forall2 P xs chunks →
  Forall (λ y, ∃ x c, x ∈ xs ∧ P x c ∧ y ∈ c) (concat chunks).
Proof.
  induction 1 as [|x c xs chunks HP _ IH]; simpl; [constructor|].
  apply Forall_app. split.
  - apply Forall_forall. intros y Hy. exists x, c. split; [left|done].
  - eapply Forall_impl; [exact IH|]. intros y (x' & c' & ? & ? & ?).
    exists x', c'. split; [by right|done].
Qed.

(** ** Identifiers are 36 characters long *)

Lemma length_append (s1 s2 : string) :
  String.length (s1 +:+ s2) = (String.length s1 + String.length s2)%nat.
Proof. induction s1 as [|c s1 IH]; simpl; [done|]. by rewrite IH. Qed.

Lemma length_substring (s : string) : ∀ n m,
  (n + m ≤ String.length s)%nat → String.length (substring n m s) = m.
Proof.
  induction s as [|c s IH]; intros [|n] [|m] Hlen; simpl in *; try done; try lia.
  - rewrite IH; [done|lia].
  - apply IH. lia.
  - apply IH. lia.
Qed.

Lemma length_hex_pad width : ∀ n acc,
  String.length (hex_pad width n acc) = (width + String.length acc)%nat.
Proof.
  induction width as [|width IH]; intros n acc; simpl; [done|].
  rewrite IH. simpl. lia.
Qed.

Lemma length_uuid_str i : String.length (uuid_str i) = 36%nat.
Proof.
  unfold uuid_str. cbv zeta.
  rewrite !length_append, !length_substring
    by (rewrite length_hex_pad; simpl; lia).
  done.
Qed.

Lemma uuid_at_nonempty env k : uuid_at env k ≠ EmptyString.
Proof.
  intros Heq. pose proof (length_uuid_str (uuid4_int (urandom env k))) as Hlen.
  unfold uuid_at in Heq. by rewrite Heq in Hlen.
Qed.

(** ** Origins of rules *)

Lemma casbin_rule_origin env w g :
  casbin_rule_ok env w g →
  Forall (rule_origin (g_users g) (g_target_secrets g)) (g_casbin_rule g).
Proof.
  intros ((blocks & g1s & ps & -> & HFg2 & HFg1 & HFp) & _).
  rewrite !Forall_app. split_and!.
  - eapply Forall_impl; [apply (Forall2_concat_source _ _ _ HFg2)|].
    intros r (name & c & Hname & ((chosen & Hsub & HF) & _) & Hr). simpl in *.
    apply Forall2_Forall_source in HF.
    rewrite Forall_forall in HF. destruct (HF r Hr) as (t & Ht & Hrule).
    apply (origin_g2 _ _ _ t name); [|done..].
    by eapply elem_of_submseteq.
  - eapply Forall_impl; [apply (Forall2_Forall_source _ _ _ HFg1)|].
    intros r (u & Hu & Hrule). by apply (origin_g1 _ _ _ u).
  - eapply Forall_impl; [apply (Forall2_Forall_source _ _ _ HFp)|].
    intros r (u & Hu & Hrule). by apply (origin_p _ _ _ u).
Qed.

Lemma written_casbin_rule_origin env w :
  Forall (rule_origin (written_users env w) (written_target_secrets env w))
         (written_casbin_rule env w).
Proof.
  destruct (written_casbin_rule_cases env w)
    as [->|(a & g & m & _ & _ & Hcr & -> & -> & ->)]; [constructor|].
  apply Forall_take, (casbin_rule_origin env w g Hcr).
Qed.

Lemma stamped_nonempty env {A} `{Row A} u0 c0 (rows : list A) :
  stamped env u0 c0 rows → Forall (λ r, row_id r ≠ EmptyString) rows.
Proof.
  intros Hst. apply Forall_forall. intros r [i Hi]%list_elem_of_lookup_1.
  destruct (Hst i r Hi) as [-> _]. apply uuid_at_nonempty.
Qed.


Lemma group_name_nonempty g : g ∈ group_names → g ≠ EmptyString.
Proof.
  unfold group_names. rewrite !elem_of_cons, elem_of_nil.
  by intros [->|[->|[->|[]]]].
Qed.

Lemma action_name_nonempty a : a ∈ action_names → a ≠ EmptyString.
Proof.
  unfold action_names. rewrite !elem_of_cons, elem_of_nil.
  by intros [->|[->|[]]].
Qed.

(** ** The claims about [generate()] *)

(** C3: every row that [generate()] writes to [casbin_rule] has a [ptype]
    among "g1", "g2" and "p". *)
Theorem generate_ptype env w :
  Forall (λ r, CasbinRule.ptype r ∈ ptypes) (written_casbin_rule env w).
Proof.
  eapply Forall_impl; [apply written_casbin_rule_origin|].
  intros r [t g _ _ (Hp & _)|u _ (Hp & _)|u _ (Hp & _)]; rewrite Hp;
    unfold ptypes; set_solver.
Qed.

(** C2: the [v0] of every rule written by [generate()] is the id of a row
    written earlier in the same run: a user for g1 and p rules, a
    [target_secrets] binding for g2 rules. *)
Theorem generate_rules_reference_rows env w :
  Forall (λ r,
      (CasbinRule.ptype r = "g1" →
         CasbinRule.v0 r ∈ User.id <$> written_users env w) ∧
      (CasbinRule.ptype r = "g2" →
         CasbinRule.v0 r ∈ TargetSecret.id <$> written_target_secrets env w) ∧
      (CasbinRule.ptype r = "p" →
         CasbinRule.v0 r ∈ User.id <$> written_users env w))
    (written_casbin_rule env w).
Proof.
  eapply Forall_impl; [apply written_casbin_rule_origin|].
  intros r [t g Ht _ (Hp & Hv0 & _)|u Hu (Hp & Hv0 & _)|u Hu (Hp & Hv0 & _)];
    rewrite Hp, Hv0; split_and!; intros Heq; try discriminate Heq;
    by apply list_elem_of_fmap_2.
Qed.

(** C5: every secret written has a non-empty password and neither a private
    nor a public key. *)
Theorem generate_secret_credential env w :
  Forall (λ s,
      (∃ pw, Secret.password s = Some pw ∧ pw ≠ EmptyString) ∧
      Secret.private_key s = None ∧ Secret.public_key s = None)
    (written_secrets env w).
Proof.
  destruct (written_secrets_cases env w) as [->|(g & m & (HF & _) & ->)];
    [constructor|].
  apply Forall_take.
  eapply Forall_impl; [apply (Forall2_Forall_source _ _ _ HF)|].
  intros s (i & _ & Hpw & Hpriv & Hpub). split; [|done].
  exists ("pw" +:+ pretty i). split; [done|]. simpl. discriminate.
Qed.

(** C6: the port of every target written lies between 1 and 65535. *)
Theorem generate_target_port env w :
  Forall (λ t, 1 ≤ Target.port t ≤ 65535) (written_targets env w).
Proof.
  destruct (written_targets_cases env w) as [->|(g & m & (HF & _) & ->)];
    [constructor|].
  apply Forall_take.
  eapply Forall_impl; [apply (Forall2_Forall_source _ _ _ HF)|].
  intros t (i & _ & Hport). unfold target_row in Hport. lia.
Qed.

(** C10: every rule written has the slots of its [ptype] filled and the
    remaining ones empty. *)
Theorem generate_rules_well_formed env w :
  Forall well_formed (written_casbin_rule env w).
Proof.
  destruct (written_casbin_rule_cases env w)
    as [->|(a & run & m & (_ & Hstu) & (_ & _ & Hstb) & Hcr & -> & _)];
    [constructor|].
  apply stamped_nonempty in Hstu. apply stamped_nonempty in Hstb.
  rewrite Forall_forall in Hstu. rewrite Forall_forall in Hstb.
  apply Forall_take.
  eapply Forall_impl; [apply (casbin_rule_origin env w run Hcr)|].
  simpl.
  intros r [t g Ht Hg (Hp & Hv0 & Hv1 & ? & ? & ? & ?)
           |u Hu (Hp & Hv0 & Hv1 & ? & ? & ? & ?)
           |u Hu (Hp & Hv0 & Hv1 & Hv2 & ? & ? & ?)];
    (split; [intros [Heq|Heq]|intros Heq]); rewrite Hp in Heq;
    try discriminate Heq; rewrite Hv0; split_and!; try done.
  - by apply (Hstb t).
  - rewrite Hv1. by apply group_name_nonempty.
  - by apply (Hstu u).
  - by rewrite Hv1.
  - by apply (Hstu u).
  - by apply group_name_nonempty.
  - by apply action_name_nonempty.
Qed.


(** The admin lookup finds nothing exactly when no row is named admin. *)
Lemma select_admin_id_None db :
  select_admin_id db = None ↔
  Forall (λ u, User.username u ≠ "admin") (DB.users db).
Proof.
  unfold select_admin_id. destruct db as [us ? ? ? ?]. simpl.
  induction us as [|u us IH]; simpl.
  - split; [constructor|done].
  - rewrite filter_cons. case_decide as Hu; simpl.
    + split; [done|]. by intros [? _]%Forall_cons.
    + rewrite IH, Forall_cons. tauto.
Qed.

Lemma select_admin_id_Some db a :
  select_admin_id db = Some a →
  ∃ u, u ∈ DB.users db ∧ User.username u = "admin" ∧ User.id u = a.
Proof.
  unfold select_admin_id. intros Hsel.
  destruct (head _) as [u|] eqn:Hhd; simplify_eq/=.
  exists u. apply head_Some_elem_of in Hhd.
  apply list_elem_of_filter in Hhd as [? ?]. done.
Qed.

(** C8: without a row named admin in [users] the run raises at the admin-id
    lookup and leaves connection and file as they were; with one, every user
    written has the id of the (first) admin row as [updated_by]. *)
Theorem generate_requires_admin env w :
  match select_admin_id (disk w) with
  | None =>
      Forall (λ u, User.username u ≠ "admin") (DB.users (disk w)) ∧
      generate env w = (Raise TypeError, set_conn (disk w) w) ∧
      conn (generate env w).2 = disk w ∧ disk (generate env w).2 = disk w
  | Some a =>
      (∃ u, u ∈ DB.users (disk w) ∧ User.username u = "admin" ∧ User.id u = a) ∧
      Forall (λ u, User.updated_by u = a) (written_users env w)
  end.
Proof.
  destruct (select_admin_id (disk w)) as [a|] eqn:Ha.
  - split; [by apply select_admin_id_Some|].
    destruct (written_users_cases env w) as [->|(a' & g & m & Ha' & (HF & _) & ->)];
      [constructor|].
    simplify_eq. apply Forall_take.
    eapply Forall_impl; [apply (Forall2_Forall_source _ _ _ HF)|].
    by intros u (i & _ & _ & Hby).
  - split; [by apply select_admin_id_None|].
    by rewrite (generate_no_admin env w Ha).
Qed.

(** ** Keys of grouping rules *)








(** ** Group resolution *)








(** ** The claims about the engine *)





(** ** The claims on concrete inputs *)


(** The scenarios of section 8 of the spec, run on the model. *)
Example Authorize_scenario_exec :
  Authorize (scenario_store 1) (Some scenario_rules) "u1" "b1" "exec" = Decided Allow.
Proof. vm_compute. reflexivity. Qed.

Example Authorize_scenario_shell :
  Authorize (scenario_store 1) (Some scenario_rules) "u1" "b1" "shell"
    = Decided (Deny "no-matching-policy").
Proof. vm_compute. reflexivity. Qed.

Example Authorize_scenario_store_down :
  Authorize (scenario_store 1) None "u1" "b1" "exec" = StoreUnavailable.
Proof. vm_compute. reflexivity. Qed.

Example ResolveGroups_transitive :
  ResolveGroups [g1 "userA" "groupX"; g1 "groupX" "groupY"] "userA" "g1"
    = {["groupX"; "groupY"]}.
Proof. vm_compute. reflexivity. Qed.

(** The first 825 identifiers of [sample_env] differ. *)
Lemma sample_env_uuids : NoDup (uuid_at sample_env <$> seq 0 825).
Proof.
  apply (NoDup_fmap_1 string_key), (bool_decide_unpack _).
  vm_compute. reflexivity.
Qed.





(** Runs of [generate()]: to the commit, without an admin row, and against
    a schema that refuses the second user (the first one stays in the open
    transaction, the file is as it was). *)
Example generate_sample_run :
  let out := generate sample_env (start_world admin_db) in
  out.1 = Ok tt ∧ length (DB.casbin_rule (disk out.2)) = 310%nat.
Proof. vm_compute. split; reflexivity. Qed.

Example generate_without_admin :
  generate sample_env (start_world empty_db) = (Raise TypeError, start_world empty_db).
Proof. vm_compute. reflexivity. Qed.

Example generate_refused :
  let out := generate strict_env (start_world admin_db) in
  out.1 = Raise IntegrityError ∧ disk out.2 = admin_db ∧
  User.username <$> DB.users (conn out.2) = ["admin"; "user1"].
Proof. vm_compute. split_and!; reflexivity. Qed.

(** * Further properties of [generate()] *)

(** A run that returns has written the five lists in full. *)
Lemma written_committed env w :
  (generate env w).1 = Ok tt →
  ∃ a g, select_admin_id (disk w) = Some a ∧ good_run env w a 6 g ∧
    written_users env w = g_users g ∧
    written_targets env w = g_targets g ∧
    written_secrets env w = g_secrets g ∧
    written_target_secrets env w = g_target_secrets g ∧
    written_casbin_rule env w = g_casbin_rule g.
Proof.
  intros Hok. destruct (select_admin_id (disk w)) as [a|] eqn:Ha.
  - destruct (written_admin env w a Ha)
      as (g & n & m & Hg & Hn & Hrun & Hu & Ht & Hs & Hb & Hc).
    rewrite Hok in Hrun. unfold outcome in Hrun. case_decide; [|done]. subst n.
    exists a, g. split; [done|]. split; [done|].
    rewrite Hu, Ht, Hs, Hb, Hc. by rewrite !table_part_full by lia.
  - by rewrite (generate_no_admin env w Ha) in Hok.
Qed.

(** With an admin row and a database that refuses no row, the run
    returns. *)
Lemma generate_returns env w a :
  select_admin_id (disk w) = Some a →
  (∀ db, integrity env db = true) →
  (generate env w).1 = Ok tt.
Proof.
  intros Ha Hall.
  destruct (generate_outcome env w a Ha)
    as (g & n & m & w' & _ & _ & Hrun & _ & _ & H5).
  rewrite Hrun, (H5 Hall). done.
Qed.

(** Rows added after the rows of a table do not change the admin lookup. *)
Lemma select_admin_id_app db db' rows a :
  DB.users db' = DB.users db ++ rows →
  select_admin_id db = Some a → select_admin_id db' = Some a.
Proof.
  unfold select_admin_id. intros -> Ha. rewrite filter_app, head_app.
  by destruct (head (filter _ (DB.users db))).
Qed.

Lemma run_conn_users env w :
  DB.users (run_conn env w) = DB.users (disk w) ++ written_users env w.
Proof.
  unfold written_users, run_conn.
  destruct (select_admin_id (disk w)) as [a|] eqn:Ha.
  - destruct (generate_outcome env w a Ha)
      as (g & n & m & w' & _ & _ & Hrun & Hconn & _).
    rewrite Hrun. simpl. rewrite Hconn. simpl. by rewrite drop_app_length.
  - rewrite (generate_no_admin env w Ha). simpl.
    by rewrite drop_all, app_nil_r.
Qed.


(** The run only appends: every table of the connection is what the file
    held, in place, followed by the rows written. *)
Theorem generate_appends env w :
  DB.users (run_conn env w) = DB.users (disk w) ++ written_users env w ∧
  DB.targets (run_conn env w) = DB.targets (disk w) ++ written_targets env w ∧
  DB.secrets (run_conn env w) = DB.secrets (disk w) ++ written_secrets env w ∧
  DB.target_secrets (run_conn env w)
    = DB.target_secrets (disk w) ++ written_target_secrets env w ∧
  DB.casbin_rule (run_conn env w)
    = DB.casbin_rule (disk w) ++ written_casbin_rule env w.
Proof.
  unfold written_users, written_targets, written_secrets,
    written_target_secrets, written_casbin_rule, run_conn.
  destruct (select_admin_id (disk w)) as [a|] eqn:Ha.
  - destruct (generate_outcome env w a Ha)
      as (g & n & m & w' & _ & _ & Hrun & Hconn & _).
    rewrite Hrun. simpl. rewrite Hconn. simpl. by rewrite !drop_app_length.
  - rewrite (generate_no_admin env w Ha). simpl.
    by rewrite !drop_all, !app_nil_r.
Qed.

(** The admin lookup finds the same row after the run as before it. *)
Theorem generate_keeps_admin env w a :
  select_admin_id (disk w) = Some a →
  select_admin_id (run_conn env w) = Some a.
Proof.
  unfold select_admin_id. intros Ha. rewrite run_conn_users.
  rewrite filter_app, head_app.
  by destruct (head (filter _ (DB.users (disk w)))).
Qed.

Lemma generate_keeps_admin_witness :
  select_admin_id (run_conn sample_env (start_world admin_db)) = Some "a0".
Proof.
  apply (generate_keeps_admin sample_env (start_world admin_db) "a0").
  reflexivity.
Defined.

(** Every binding written refers to a target and a secret written by the
    same run. *)
Theorem generate_bindings_reference_rows env w :
  Forall (λ b,
      TargetSecret.target_id b ∈ Target.id <$> written_targets env w ∧
      TargetSecret.secret_id b ∈ Secret.id <$> written_secrets env w)
    (written_target_secrets env w).
Proof.
  destruct (select_admin_id (disk w)) as [a|] eqn:Ha; cycle 1.
  { destruct (written_no_admin env w Ha) as (_ & _ & _ & -> & _). constructor. }
  destruct (written_admin env w a Ha)
    as (g & n & m & Hg & Hn & _ & _ & -> & -> & -> & _).
  destruct (table_part_cases 4 n m (g_target_secrets g)) as [->|(Hk & m' & ->)];
    [constructor|].
  rewrite !table_part_full by lia.
  destruct Hg as (_ & _ & _ & Hgb & _).
  destruct (Hgb ltac:(lia)) as ((chunks & -> & HF) & _).
  apply Forall_take.
  eapply Forall_impl; [apply (Forall2_concat_source _ _ _ HF)|].
  intros b (t & c & Ht & ((chosen & Hsub & HFc) & _) & Hb). simpl in *.
  apply Forall2_Forall_source in HFc. rewrite Forall_forall in HFc.
  destruct (HFc b Hb) as (s & Hs & -> & ->).
  split; apply list_elem_of_fmap_2; [done|]. by eapply elem_of_submseteq.
Qed.

(** In a run that returns, every target has three bindings, written one
    target after the other, to secrets at three different places of the
    secrets list. *)
Theorem generate_three_secrets_per_target env w :
  (generate env w).1 = Ok tt →
  ∃ chunks, written_target_secrets env w = concat chunks ∧
    Forall2 (λ t c, binding_row (written_secrets env w) t c ∧ length c = 3%nat)
            (written_targets env w) chunks.
Proof.
  intros Hok.
  destruct (written_committed env w Hok) as (a & g & _ & Hg & _ & -> & -> & -> & _).
  destruct Hg as (_ & _ & _ & Hgb & _). by destruct (Hgb ltac:(lia)) as (? & _).
Qed.

Lemma generate_three_secrets_per_target_witness :
  ∃ chunks,
    written_target_secrets sample_env (start_world admin_db) = concat chunks ∧
    Forall2 (λ t c, binding_row (written_secrets sample_env (start_world admin_db)) t c
                    ∧ length c = 3%nat)
            (written_targets sample_env (start_world admin_db)) chunks.
Proof.
  apply (generate_three_secrets_per_target sample_env (start_world admin_db)).
  apply (generate_returns sample_env (start_world admin_db) "a0");
    [reflexivity|intros db; reflexivity].
Defined.

(** In a run that returns, the rules written are 100 g2 rules for apple, 100
    for banana, 100 for peach (each block on bindings at different places
    of the bindings list), then one g1 rule per user, in the order of the
    users, then one p rule per user. *)
Theorem generate_rule_layout env w :
  (generate env w).1 = Ok tt →
  ∃ apple banana peach g1s ps,
    written_casbin_rule env w = apple ++ banana ++ peach ++ g1s ++ ps ∧
    (g2_block (written_target_secrets env w) "apple" apple ∧ length apple = 100%nat) ∧
    (g2_block (written_target_secrets env w) "banana" banana ∧ length banana = 100%nat) ∧
    (g2_block (written_target_secrets env w) "peach" peach ∧ length peach = 100%nat) ∧
    Forall2 g1_rule (written_users env w) g1s ∧
    Forall2 p_rule (written_users env w) ps.
Proof.
  intros Hok.
  destruct (written_committed env w Hok) as (a & g & _ & Hg & -> & _ & _ & -> & ->).
  destruct Hg as (_ & _ & _ & _ & Hgc).
  destruct (Hgc ltac:(lia)) as ((blocks & g1s & ps & -> & HFg2 & HFg1 & HFp) & _).
  unfold group_names in HFg2.
  apply Forall2_cons_inv_l in HFg2 as (b1 & bs1 & Hb1 & HFg2 & ->).
  apply Forall2_cons_inv_l in HFg2 as (b2 & bs2 & Hb2 & HFg2 & ->).
  apply Forall2_cons_inv_l in HFg2 as (b3 & bs3 & Hb3 & HFg2 & ->).
  apply Forall2_nil_inv_l in HFg2 as ->.
  exists b1, b2, b3, g1s, ps. simpl. rewrite app_nil_r, <-!app_assoc. done.
Qed.

Lemma generate_rule_layout_witness :
  ∃ apple banana peach g1s ps,
    written_casbin_rule sample_env (start_world admin_db)
      = apple ++ banana ++ peach ++ g1s ++ ps ∧
    (g2_block (written_target_secrets sample_env (start_world admin_db)) "apple" apple
     ∧ length apple = 100%nat) ∧
    (g2_block (written_target_secrets sample_env (start_world admin_db)) "banana" banana
     ∧ length banana = 100%nat) ∧
    (g2_block (written_target_secrets sample_env (start_world admin_db)) "peach" peach
     ∧ length peach = 100%nat) ∧
    Forall2 g1_rule (written_users sample_env (start_world admin_db)) g1s ∧
    Forall2 p_rule (written_users sample_env (start_world admin_db)) ps.
Proof.
  apply (generate_rule_layout sample_env (start_world admin_db)).
  apply (generate_returns sample_env (start_world admin_db) "a0");
    [reflexivity|intros db; reflexivity].
Defined.

(** The groups and actions of the rules written: g2 rules put bindings in
    apple, banana or peach, g1 rules put users in login_group, p rules grant
    exec or shell on apple, banana or peach. *)
Theorem generate_rule_values env w :
  Forall (λ r,
      (CasbinRule.ptype r = "g2" → CasbinRule.v1 r ∈ group_names) ∧
      (CasbinRule.ptype r = "g1" → CasbinRule.v1 r = "login_group") ∧
      (CasbinRule.ptype r = "p" →
         CasbinRule.v1 r ∈ group_names ∧ CasbinRule.v2 r ∈ action_names))
    (written_casbin_rule env w).
Proof.
  eapply Forall_impl; [apply written_casbin_rule_origin|].
  intros r [t g Ht Hg (Hp & _ & Hv1 & _)|u Hu (Hp & _ & Hv1 & _)
           |u Hu (Hp & _ & Hv1 & Hv2 & _)];
    rewrite Hp; split_and!; intros Heq; try discriminate Heq; try done.
  by rewrite Hv1.
Qed.

(** ** Following a run with other facts about the lists *)

Lemma wp_and {A} (m : M A) w (Q1 Q2 : A → World → Prop) :
  wp m w Q1 → wp m w Q2 → wp m w (λ a w', Q1 a w' ∧ Q2 a w').
Proof.
  intros (a1 & w1 & H1 & HQ1) (a2 & w2 & H2 & HQ2).
  rewrite H1 in H2. simplify_eq. by exists a2, w2.
Qed.

(** A loop keeps what every round keeps. *)
Lemma wp_for_in_inv {A B} (I : B → Prop) (xs : list A) (body : B → A → M B) acc w :
  I acc →
  (∀ acc x w, x ∈ xs → I acc → wp (body acc x) w (λ acc' _, I acc')) →
  wp (for_in xs acc body) w (λ acc' _, I acc').
Proof.
  intros H0 Hstep.
  apply (wp_for_in (λ _ acc' _, I acc')); [done|].
  intros done x rest acc' w' -> HI. apply Hstep; [|done].
  apply elem_of_app. right. left.
Qed.

Section Walk.
Context (env : Env).
Variable Pu : string → list User.t → Prop.
Variable Pt : list User.t → list Target.t → Prop.
Variable Ps : list User.t → list Secret.t → Prop.
Variable Pb : list User.t → list TargetSecret.t → Prop.
Variable Pc : list User.t → list TargetSecret.t → list CasbinRule.t → Prop.
Hypothesis HPu : ∀ a w, wp (gen_users env a) w (λ us _, Pu a us).
Hypothesis HPt : ∀ us w, us ≠ [] → wp (gen_targets env us) w (λ tg _, Pt us tg).
Hypothesis HPs : ∀ us w, us ≠ [] → wp (gen_secrets env us) w (λ se _, Ps us se).
Hypothesis HPb : ∀ us tg se w, us ≠ [] → (3 ≤ length se)%nat →
  wp (gen_target_secrets env us tg se) w (λ ts _, Pb us ts).
Hypothesis HPc : ∀ us ts w, us ≠ [] → (100 ≤ length ts)%nat →
  wp (gen_rules_g2 env us ts [] ≫= λ cr1,
      gen_rules_g1 env us cr1 ≫= λ cr2, gen_rules_p env us cr2) w
     (λ cr _, Pc us ts cr).

Ltac walk_facts_now :=
  unfold walk_facts; split_and!; intros; try lia; done.

Lemma generate_walk w a :
  select_admin_id (disk w) = Some a →
  ∃ g n m w', walk_facts Pu Pt Ps Pb Pc a n g ∧ (n ≤ 5)%nat ∧
    generate env w = (outcome n, w') ∧
    conn w' = inserted n m g (disk w).
Proof.
  intros Ha.
  assert (connect w = (Ok tt, set_conn (disk w) w)) as Hc by done.
  assert (fetch_admin_id (set_conn (disk w) w) = (Ok a, set_conn (disk w) w)) as Hf.
  { unfold fetch_admin_id. simpl. by rewrite Ha. }
  (* 3.1 *)
  destruct (wp_and _ _ _ _ (gen_users_spec env a (set_conn (disk w) w)) (HPu a _))
    as (us & w1 & Hus & (HFus & _ & (_ & _ & Hconn1 & _)) & HPus).
  simpl in Hconn1.
  assert (length us = 5%nat) as Hlus by (by apply Forall2_range_length in HFus).
  assert (us ≠ []) as Hne by (intros ->; done).
  destruct (executemany_outcome env insert_users us
              insert_users_nil insert_users_app w1) as (m1 & _ & He1 & _).
  rewrite Hconn1 in He1.
  destruct (decide (m1 = length us)) as [Hm1|Hm1]; cycle 1.
  { exists {| g_users := us; g_targets := []; g_secrets := [];
              g_target_secrets := []; g_casbin_rule := [] |}, 0%nat, m1.
    eexists. split; [walk_facts_now|]. split; [lia|]. split.
    { unfold generate. run_ok Hc. run_ok Hf. run_ok Hus. by run_raise He1. }
    by rewrite <-inserted_users_part. }
  rewrite Hm1, firstn_all in He1. clear m1 Hm1.
  (* 3.2 *)
  destruct (wp_and _ _ _ _
              (gen_targets_spec env us (set_conn (insert_users us (disk w)) w1) Hne)
              (HPt us _ Hne))
    as (tg & w2 & Htg & (HFtg & _ & (_ & _ & Hconn2 & _)) & HPtg).
  cbn [set_conn conn] in Hconn2.
  destruct (executemany_outcome env insert_targets tg
              insert_targets_nil insert_targets_app w2) as (m2 & _ & He2 & _).
  rewrite Hconn2 in He2.
  destruct (decide (m2 = length tg)) as [Hm2|Hm2]; cycle 1.
  { exists {| g_users := us; g_targets := tg; g_secrets := [];
              g_target_secrets := []; g_casbin_rule := [] |}, 1%nat, m2.
    eexists. split; [walk_facts_now|]. split; [lia|]. split.
    { unfold generate. run_ok Hc. run_ok Hf. run_ok Hus. run_ok He1. run_ok Htg.
      by run_raise He2. }
    by rewrite <-inserted_targets_part, <-inserted_users. }
  rewrite Hm2, firstn_all in He2. clear m2 Hm2.
  (* 3.3 *)
  destruct (wp_and _ _ _ _
              (gen_secrets_spec env us
                 (set_conn (insert_targets tg (insert_users us (disk w))) w2) Hne)
              (HPs us _ Hne))
    as (se & w3 & Hse & (HFse & _ & (_ & _ & Hconn3 & _)) & HPse).
  cbn [set_conn conn] in Hconn3.
  assert (length se = 20%nat) as Hlse by (by apply Forall2_range_length in HFse).
  destruct (executemany_outcome env insert_secrets se
              insert_secrets_nil insert_secrets_app w3) as (m3 & _ & He3 & _).
  rewrite Hconn3 in He3.
  destruct (decide (m3 = length se)) as [Hm3|Hm3]; cycle 1.
  { exists {| g_users := us; g_targets := tg; g_secrets := se;
              g_target_secrets := []; g_casbin_rule := [] |}, 2%nat, m3.
    eexists. split; [walk_facts_now|]. split; [lia|]. split.
    { unfold generate. run_ok Hc. run_ok Hf. run_ok Hus. run_ok He1. run_ok Htg.
      run_ok He2. run_ok Hse. by run_raise He3. }
    by rewrite <-inserted_secrets_part, <-inserted_targets, <-inserted_users. }
  rewrite Hm3, firstn_all in He3. clear m3 Hm3.
  (* 3.4 *)
  assert (3 ≤ length se)%nat as Hse3 by lia.
  destruct (wp_and _ _ _ _
              (gen_target_secrets_spec env us tg se
                 (set_conn (insert_secrets se
                    (insert_targets tg (insert_users us (disk w)))) w3) Hne Hse3)
              (HPb us tg se _ Hne Hse3))
    as (ts & w4 & Hts & (chunks & Hcat & HFts & _ & (_ & _ & Hconn4 & _)) & HPts).
  cbn [set_conn conn] in Hconn4.
  assert (length ts = 600%nat) as Hlts.
  { rewrite Hcat, (concat_length_const _ _ _ _ HFts).
    apply Forall2_range_length in HFtg. lia. }
  destruct (executemany_outcome env insert_target_secrets ts
              insert_target_secrets_nil insert_target_secrets_app w4)
    as (m4 & _ & He4 & _).
  rewrite Hconn4 in He4.
  destruct (decide (m4 = length ts)) as [Hm4|Hm4]; cycle 1.
  { exists {| g_users := us; g_targets := tg; g_secrets := se;
              g_target_secrets := ts; g_casbin_rule := [] |}, 3%nat, m4.
    eexists. split; [walk_facts_now|]. split; [lia|]. split.
    { unfold generate. run_ok Hc. run_ok Hf. run_ok Hus. run_ok He1. run_ok Htg.
      run_ok He2. run_ok Hse. run_ok He3. run_ok Hts. by run_raise He4. }
    by rewrite <-inserted_target_secrets_part, <-inserted_secrets,
               <-inserted_targets, <-inserted_users. }
  rewrite Hm4, firstn_all in He4. clear m4 Hm4.
  (* the rules *)
  assert (100 ≤ length ts)%nat as Hts100 by lia.
  destruct (gen_rules_g2_spec env us ts []
              (set_conn (insert_target_secrets ts (insert_secrets se
                 (insert_targets tg (insert_users us (disk w))))) w4) Hne Hts100)
    as (cr1 & w5 & Hcr1 & (_ & _ & _ & _ & (_ & _ & Hconn5 & _))).
  cbn [set_conn conn] in Hconn5.
  destruct (gen_rules_g1_spec env us cr1 w5 Hne)
    as (cr2 & w6 & Hcr2 & (_ & _ & _ & _ & (_ & _ & Hconn6 & _))).
  destruct (gen_rules_p_spec env us cr2 w6 Hne)
    as (cr3 & w7 & Hcr3 & (_ & _ & _ & _ & (_ & _ & Hconn7 & _))).
  assert (Pc us ts cr3) as HPcr.
  { destruct (HPc us ts
                (set_conn (insert_target_secrets ts (insert_secrets se
                   (insert_targets tg (insert_users us (disk w))))) w4) Hne Hts100)
      as (cr & w' & Hrun & HP).
    rewrite (bind_ok _ _ _ _ _ Hcr1) in Hrun. cbv beta in Hrun.
    rewrite (bind_ok _ _ _ _ _ Hcr2) in Hrun. cbv beta in Hrun.
    rewrite Hcr3 in Hrun. by simplify_eq. }
  assert (conn w7 = insert_target_secrets ts (insert_secrets se
            (insert_targets tg (insert_users us (disk w))))) as Hconn.
  { by rewrite Hconn7, Hconn6, Hconn5. }
  destruct (executemany_outcome env insert_casbin_rule cr3
              insert_casbin_rule_nil insert_casbin_rule_app w7)
    as (m5 & _ & He5 & _).
  rewrite Hconn in He5.
  destruct (decide (m5 = length cr3)) as [Hm5|Hm5]; cycle 1.
  { exists {| g_users := us; g_targets := tg; g_secrets := se;
              g_target_secrets := ts; g_casbin_rule := cr3 |}, 4%nat, m5.
    eexists. split; [walk_facts_now|]. split; [lia|]. split.
    { unfold generate. run_ok Hc. run_ok Hf. run_ok Hus. run_ok He1. run_ok Htg.
      run_ok He2. run_ok Hse. run_ok He3. run_ok Hts. run_ok He4.
      run_ok Hcr1. run_ok Hcr2. run_ok Hcr3. by run_raise He5. }
    by rewrite <-inserted_casbin_rule_part, <-inserted_target_secrets,
               <-inserted_secrets, <-inserted_targets, <-inserted_users. }
  rewrite Hm5, firstn_all in He5. clear m5 Hm5.
  exists {| g_users := us; g_targets := tg; g_secrets := se;
            g_target_secrets := ts; g_casbin_rule := cr3 |}, 5%nat, 0%nat.
  eexists. split; [walk_facts_now|]. split; [lia|]. split.
  { unfold generate. run_ok Hc. run_ok Hf. run_ok Hus. run_ok He1. run_ok Htg.
    run_ok He2. run_ok Hse. run_ok He3. run_ok Hts. run_ok He4.
    run_ok Hcr1. run_ok Hcr2. run_ok Hcr3. run_ok He5. reflexivity. }
  cbn [set_conn conn disk uuid_pos clock_pos].
  by rewrite <-(inserted_casbin_rule _ 0), <-inserted_target_secrets,
             <-inserted_secrets, <-inserted_targets, <-inserted_users.
Qed.

(** The rows written are parts of lists for which the facts hold. *)
Lemma written_walk w a :
  select_admin_id (disk w) = Some a →
  ∃ g n m, walk_facts Pu Pt Ps Pb Pc a n g ∧
    written_users env w = table_part 1 n m (g_users g) ∧
    written_targets env w = table_part 2 n m (g_targets g) ∧
    written_secrets env w = table_part 3 n m (g_secrets g) ∧
    written_target_secrets env w = table_part 4 n m (g_target_secrets g) ∧
    written_casbin_rule env w = table_part 5 n m (g_casbin_rule g).
Proof.
  intros Ha.
  destruct (generate_walk w a Ha) as (g & n & m & w' & Hg & Hn & Hrun & Hconn).
  exists g, n, m. split; [done|].
  unfold written_users, written_targets, written_secrets,
    written_target_secrets, written_casbin_rule, run_conn.
  rewrite Hrun. simpl. rewrite Hconn. simpl.
  by rewrite !drop_app_length.
Qed.
End Walk.

(** ** The columns of the rows written *)

Lemma flag_of_two z : z ∈ [0; 1] → flag z.
Proof. rewrite !elem_of_cons, elem_of_nil. unfold flag. intros [->|[->|[]]]; auto. Qed.

Lemma flag_of_four z : z ∈ [0; 1; 1; 1] → flag z.
Proof.
  rewrite !elem_of_cons, elem_of_nil. unfold flag.
  intros [->|[->|[->|[->|[]]]]]; auto.
Qed.

Section Columns.
Variable env : Env.

Ltac col_call :=
  first
    [ apply wp_uuid4
    | apply wp_now_ts
    | apply wp_randint; [lia | intros ? ?]
    | apply wp_choice; [done | intros ? ?] ].

Ltac col_body := repeat (apply wp_bind; col_call); apply wp_ret.

Ltac col_row :=
  eexists; split; [reflexivity|]; split;
    [ | split; [split; [reflexivity | simpl; by apply ms_stamp_intro]
               | by apply steps_one] ].

Ltac col_facts :=
  unfold rule_columns; repeat split; simpl;
    auto using flag_of_two, flag_of_four, list_elem_of_fmap_2 with lia.

Lemma gen_users_columns admin_id w :
  wp (gen_users env admin_id) w (λ users _,
    Forall2 (user_columns admin_id) (range 1 6) users).
Proof.
  eapply wp_mono; [apply (wp_rows env (user_columns admin_id))|].
  - intros acc i w1 _. col_body. col_row. col_facts.
  - by intros users w' (new & -> & ? & _).
Qed.

Lemma gen_targets_columns users w :
  users ≠ [] →
  wp (gen_targets env users) w (λ targets _,
    Forall2 (target_columns users) (range 1 201) targets).
Proof.
  intros Hne. eapply wp_mono; [apply (wp_rows env (target_columns users))|].
  - intros acc i w1 _. col_body. col_row. col_facts.
  - by intros targets w' (new & -> & ? & _).
Qed.

Lemma gen_secrets_columns users w :
  users ≠ [] →
  wp (gen_secrets env users) w (λ secrets _,
    Forall2 (secret_columns users) (range 1 21) secrets).
Proof.
  intros Hne. eapply wp_mono; [apply (wp_rows env (secret_columns users))|].
  - intros acc i w1 _. col_body. col_row. col_facts.
  - by intros secrets w' (new & -> & ? & _).
Qed.

Lemma gen_target_secrets_columns users targets secrets w :
  users ≠ [] → (3 ≤ length secrets)%nat →
  wp (gen_target_secrets env users targets secrets) w (λ target_secrets _,
    Forall (binding_columns users) target_secrets).
Proof.
  intros Hne Hlen. apply wp_for_in_inv; [constructor|].
  intros acc t w1 _ Hacc. apply wp_bind, wp_sample; [done|].
  intros chosen w2 _ _ _. apply wp_for_in_inv; [done|].
  intros acc' s w3 _ Hacc'. col_body.
  apply Forall_app. split; [done|]. constructor; [|constructor]. col_facts.
Qed.

Lemma gen_rules_columns users target_secrets w :
  users ≠ [] → (100 ≤ length target_secrets)%nat →
  wp (gen_rules_g2 env users target_secrets [] ≫= λ cr1,
      gen_rules_g1 env users cr1 ≫= λ cr2, gen_rules_p env users cr2) w
     (λ casbin_rule _, Forall (rule_columns users) casbin_rule).
Proof.
  intros Hne Hlen. apply wp_bind.
  eapply wp_mono.
  { apply (wp_for_in_inv (Forall (rule_columns users))); [constructor|].
    intros acc g w1 _ Hacc. apply wp_bind, wp_sample; [done|].
    intros chosen w2 _ _ _. apply wp_for_in_inv; [done|].
    intros acc' t w3 _ Hacc'. col_body.
    apply Forall_app. split; [done|]. constructor; [|constructor]. col_facts. }
  intros cr1 w1 Hcr1. apply wp_bind.
  eapply wp_mono.
  { apply (wp_for_in_inv (Forall (rule_columns users))); [done|].
    intros acc u w2 _ Hacc. col_body.
    apply Forall_app. split; [done|]. constructor; [|constructor]. col_facts. }
  intros cr2 w2 Hcr2.
  apply (wp_for_in_inv (Forall (rule_columns users))); [done|].
  intros acc u w3 _ Hacc. col_body.
  apply Forall_app. split; [done|]. constructor; [|constructor]. col_facts.
Qed.

(** The rows written are parts of lists whose columns are as the script
    sets them. *)
Lemma written_columns w a :
  select_admin_id (disk w) = Some a →
  ∃ g n m,
    walk_facts (λ a us, Forall2 (user_columns a) (range 1 6) us)
               (λ us tg, Forall2 (target_columns us) (range 1 201) tg)
               (λ us se, Forall2 (secret_columns us) (range 1 21) se)
               (λ us ts, Forall (binding_columns us) ts)
               (λ us _ cr, Forall (rule_columns us) cr) a n g ∧
    written_users env w = table_part 1 n m (g_users g) ∧
    written_targets env w = table_part 2 n m (g_targets g) ∧
    written_secrets env w = table_part 3 n m (g_secrets g) ∧
    written_target_secrets env w = table_part 4 n m (g_target_secrets g) ∧
    written_casbin_rule env w = table_part 5 n m (g_casbin_rule g).
Proof.
  apply written_walk.
  - apply gen_users_columns.
  - apply gen_targets_columns.
  - apply gen_secrets_columns.
  - apply gen_target_secrets_columns.
  - intros us ts w'. apply gen_rules_columns.
Qed.
End Columns.

Lemma Forall2_fmap_eq {A B C} (f : B → C) (h : A → C) (l1 : list A) (l2 : list B) :
  Forall2 (λ i x, f x = h i) l1 l2 → f <$> l2 = h <$> l1.
Proof. induction 1 as [|i x l1 l2 Hx _ IH]; [done|]. by rewrite !fmap_cons, Hx, IH. Qed.

(** Every target, secret, binding and rule written names a user written by
    the same run as [updated_by]. *)
Theorem generate_updated_by env w :
  Forall (λ t, Target.updated_by t ∈ User.id <$> written_users env w)
         (written_targets env w) ∧
  Forall (λ s, Secret.updated_by s ∈ User.id <$> written_users env w)
         (written_secrets env w) ∧
  Forall (λ b, TargetSecret.updated_by b ∈ User.id <$> written_users env w)
         (written_target_secrets env w) ∧
  Forall (λ r, CasbinRule.updated_by r ∈ User.id <$> written_users env w)
         (written_casbin_rule env w).
Proof.
  destruct (select_admin_id (disk w)) as [a|] eqn:Ha; cycle 1.
  { destruct (written_no_admin env w Ha) as (_ & -> & -> & -> & ->).
    split_and!; constructor. }
  destruct (written_columns env w a Ha)
    as (g & n & m & (_ & Ht & Hs & Hb & Hc) & -> & -> & -> & -> & ->).
  split_and!.
  - destruct (table_part_cases 2 n m (g_targets g)) as [->|(Hk & m' & ->)];
      [constructor|].
    rewrite table_part_full by lia. apply Forall_take.
    eapply Forall_impl; [apply (Forall2_Forall_source _ _ _ (Ht ltac:(lia)))|].
    by intros t (i & _ & _ & _ & _ & _ & _ & _ & Hby).
  - destruct (table_part_cases 3 n m (g_secrets g)) as [->|(Hk & m' & ->)];
      [constructor|].
    rewrite table_part_full by lia. apply Forall_take.
    eapply Forall_impl; [apply (Forall2_Forall_source _ _ _ (Hs ltac:(lia)))|].
    by intros s (i & _ & _ & _ & _ & _ & _ & _ & Hby).
  - destruct (table_part_cases 4 n m (g_target_secrets g)) as [->|(Hk & m' & ->)];
      [constructor|].
    rewrite table_part_full by lia. apply Forall_take.
    eapply Forall_impl; [apply (Hb ltac:(lia))|]. by intros b (_ & Hby).
  - destruct (table_part_cases 5 n m (g_casbin_rule g)) as [->|(Hk & m' & ->)];
      [constructor|].
    rewrite table_part_full by lia. apply Forall_take. apply Hc. lia.
Qed.

(** The 0/1 columns and the login names: every user written is active and
    has [force_init_pass] 0 or 1; targets, secrets and bindings have
    [is_active] 0 or 1; the login name of a secret is root, alice or bob. *)
Theorem generate_flags env w :
  Forall (λ u, flag (User.force_init_pass u) ∧ User.is_active u = 1)
         (written_users env w) ∧
  Forall (λ t, flag (Target.is_active t)) (written_targets env w) ∧
  Forall (λ s, flag (Secret.is_active s) ∧ Secret.user s ∈ ["root"; "alice"; "bob"])
         (written_secrets env w) ∧
  Forall (λ b, flag (TargetSecret.is_active b)) (written_target_secrets env w).
Proof.
  destruct (select_admin_id (disk w)) as [a|] eqn:Ha; cycle 1.
  { destruct (written_no_admin env w Ha) as (-> & -> & -> & -> & _).
    split_and!; constructor. }
  destruct (written_columns env w a Ha)
    as (g & n & m & (Hu & Ht & Hs & Hb & _) & -> & -> & -> & -> & _).
  split_and!.
  - destruct (table_part_cases 1 n m (g_users g)) as [->|(Hk & m' & ->)];
      [constructor|].
    apply Forall_take.
    eapply Forall_impl; [apply (Forall2_Forall_source _ _ _ Hu)|].
    by intros u (i & _ & _ & _ & _ & _ & Hf & Hact & _).
  - destruct (table_part_cases 2 n m (g_targets g)) as [->|(Hk & m' & ->)];
      [constructor|].
    apply Forall_take.
    eapply Forall_impl; [apply (Forall2_Forall_source _ _ _ (Ht ltac:(lia)))|].
    by intros t (i & _ & _ & _ & _ & _ & _ & Hact & _).
  - destruct (table_part_cases 3 n m (g_secrets g)) as [->|(Hk & m' & ->)];
      [constructor|].
    apply Forall_take.
    eapply Forall_impl; [apply (Forall2_Forall_source _ _ _ (Hs ltac:(lia)))|].
    by intros s (i & _ & _ & Huser & _ & _ & _ & Hact & _).
  - destruct (table_part_cases 4 n m (g_target_secrets g)) as [->|(Hk & m' & ->)];
      [constructor|].
    apply Forall_take.
    eapply Forall_impl; [apply (Hb ltac:(lia))|]. by intros b (Hact & _).
Qed.

(** A run that returns has committed: the file holds what the connection
    holds. *)
Lemma generate_returns_file env w :
  (generate env w).1 = Ok tt → disk (generate env w).2 = run_conn env w.
Proof.
  intros Hok. destruct (select_admin_id (disk w)) as [a|] eqn:Ha.
  - destruct (generate_outcome env w a Ha)
      as (g & n & m & w' & _ & Hn & Hrun & Hconn & Hdisk & _).
    unfold run_conn. rewrite Hrun in Hok |- *. simpl in *.
    unfold outcome in Hok. case_decide; [|done]. subst n.
    rewrite Hconn, Hdisk. unfold inserted. by rewrite !table_part_full by lia.
  - by rewrite (generate_no_admin env w Ha) in Hok.
Qed.

(** The names do not depend on the random sources: a run that returns has
    written the users user1 to user5 (with their addresses), the targets
    target-1 to target-200 and the secrets secret-1 to secret-20, in
    order. *)
Theorem generate_names env w :
  (generate env w).1 = Ok tt →
  User.username <$> written_users env w
    = (λ i, "user" +:+ pretty i) <$> range 1 6 ∧
  User.email <$> written_users env w
    = (λ i, "user" +:+ pretty i +:+ "@example.com") <$> range 1 6 ∧
  Target.name <$> written_targets env w
    = (λ i, "target-" +:+ pretty i) <$> range 1 201 ∧
  Secret.name <$> written_secrets env w
    = (λ i, "secret-" +:+ pretty i) <$> range 1 21.
Proof.
  intros Hok.
  destruct (select_admin_id (disk w)) as [a|] eqn:Ha;
    [|by rewrite (generate_no_admin env w Ha) in Hok].
  destruct (generate_walk env _ _ _ _ _
              (gen_users_columns env) (gen_targets_columns env)
              (gen_secrets_columns env) (gen_target_secrets_columns env)
              (λ us ts w', gen_rules_columns env us ts w') w a Ha)
    as (g & n & m & w' & (Hu & Ht & Hs & _) & Hn & Hrun' & Hconn).
  assert (n = 5%nat) as ->.
  { rewrite Hrun' in Hok. simpl in Hok. unfold outcome in Hok.
    by case_decide. }
  unfold written_users, written_targets, written_secrets, run_conn.
  rewrite Hrun'. cbn [snd]. rewrite Hconn. unfold inserted.
  cbn [DB.users DB.targets DB.secrets]. rewrite !drop_app_length.
  rewrite !table_part_full by lia.
  split_and!; apply Forall2_fmap_eq.
  - eapply Forall2_impl; [exact Hu|]. by intros i u (? & _).
  - eapply Forall2_impl; [exact Hu|]. by intros i u (_ & ? & _).
  - eapply Forall2_impl; [exact (Ht ltac:(lia))|]. by intros i t (? & _).
  - eapply Forall2_impl; [exact (Hs ltac:(lia))|]. by intros i s (? & _).
Qed.

Lemma generate_names_witness :
  User.username <$> written_users sample_env (start_world admin_db)
    = (λ i, "user" +:+ pretty i) <$> range 1 6 ∧
  User.email <$> written_users sample_env (start_world admin_db)
    = (λ i, "user" +:+ pretty i +:+ "@example.com") <$> range 1 6 ∧
  Target.name <$> written_targets sample_env (start_world admin_db)
    = (λ i, "target-" +:+ pretty i) <$> range 1 201 ∧
  Secret.name <$> written_secrets sample_env (start_world admin_db)
    = (λ i, "secret-" +:+ pretty i) <$> range 1 21.
Proof.
  apply (generate_names sample_env (start_world admin_db)).
  apply (generate_returns sample_env (start_world admin_db) "a0");
    [reflexivity|intros db; reflexivity].
Defined.

(** The script does not look at what the file already holds beyond the
    admin row: a second run that returns, started on the outcome of a first
    one that returned, leaves the file with the five users of the first run
    followed by five more of the same names. *)
Theorem generate_twice env env' w :
  (generate env w).1 = Ok tt →
  (generate env' (generate env w).2).1 = Ok tt →
  ∃ first second,
    DB.users (disk (generate env' (generate env w).2).2)
      = DB.users (disk w) ++ first ++ second ∧
    length first = 5%nat ∧
    User.username <$> first = (λ i, "user" +:+ pretty i) <$> range 1 6 ∧
    User.username <$> second = User.username <$> first.
Proof.
  intros Hok1 Hok2. set (w1 := (generate env w).2) in *.
  exists (written_users env w), (written_users env' w1).
  rewrite (generate_returns_file env' w1 Hok2), run_conn_users.
  unfold w1 at 1. rewrite (generate_returns_file env w Hok1), run_conn_users.
  rewrite <-app_assoc. split; [done|].
  destruct (written_committed env w Hok1) as (a & g & _ & Hg & -> & _).
  destruct (written_committed env' w1 Hok2) as (a' & g' & _ & Hg' & -> & _).
  destruct Hg as (Hu & _). destruct (Hu ltac:(lia)) as (HF & _).
  destruct Hg' as (Hu' & _). destruct (Hu' ltac:(lia)) as (HF' & _).
  assert (∀ b (us : list User.t), Forall2 (user_row b) (range 1 6) us →
    User.username <$> us = (λ i, "user" +:+ pretty i) <$> range 1 6) as Hnames.
  { intros b us HFu. apply Forall2_fmap_eq.
    eapply Forall2_impl; [exact HFu|]. by intros i u (? & _). }
  split; [by apply Forall2_range_length in HF|].
  split; [by apply (Hnames a)|].
  by rewrite (Hnames a _ HF), (Hnames a' _ HF').
Qed.

Lemma generate_twice_witness :
  ∃ first second,
    DB.users (disk (generate sample_env
                      (generate sample_env (start_world admin_db)).2).2)
      = DB.users (disk (start_world admin_db)) ++ first ++ second ∧
    length first = 5%nat ∧
    User.username <$> first = (λ i, "user" +:+ pretty i) <$> range 1 6 ∧
    User.username <$> second = User.username <$> first.
Proof.
  assert ((generate sample_env (start_world admin_db)).1 = Ok tt) as Hfirst.
  { apply (generate_returns sample_env (start_world admin_db) "a0");
      [reflexivity|intros db; reflexivity]. }
  apply (generate_twice sample_env sample_env (start_world admin_db) Hfirst).
  apply (generate_returns sample_env _ "a0"); [|intros db; reflexivity].
  rewrite (generate_returns_file sample_env (start_world admin_db) Hfirst).
  apply (select_admin_id_app (disk (start_world admin_db)) _ _ _
           (run_conn_users sample_env (start_world admin_db))).
  reflexivity.
Defined.

(** ** The identifiers of the rows written *)

Lemma table_part_ids env {A} `{Row A} k n m u c len (l : list A) :
  ((k ≤ S n)%nat → stamped env u c l ∧ length l = len) →
  row_id <$> table_part k n m l `sublist_of` uuid_at env <$> seq u len.
Proof.
  intros Hl.
  destruct (table_part_cases k n m l) as [->|(Hk & m' & ->)];
    [apply sublist_nil_l|].
  destruct (Hl Hk) as (Hst & <-). apply stamped_ids in Hst.
  rewrite <-Hst, fmap_take. apply sublist_take.
Qed.

(** The ids written are, in order, among the 1135 identifiers [uuid4()]
    hands out from the start of the run. *)
Lemma written_ids_sublist env w :
  written_ids env w `sublist_of` uuid_at env <$> seq (uuid_pos w) 1135.
Proof.
  unfold written_ids.
  destruct (select_admin_id (disk w)) as [a|] eqn:Ha; cycle 1.
  { destruct (written_no_admin env w Ha) as (-> & -> & -> & -> & ->).
    apply sublist_nil_l. }
  destruct (written_admin env w a Ha)
    as (g & n & m & Hg & Hn & _ & -> & -> & -> & -> & ->).
  destruct Hg as (Hu & Ht & Hs & Hb & Hc).
  assert (seq (uuid_pos w) 1135
          = seq (uuid_pos w) 5 ++ seq (uuid_pos w + 5) 200 ++
            seq (uuid_pos w + 205) 20 ++ seq (uuid_pos w + 225) 600 ++
            seq (uuid_pos w + 825) 310) as ->.
  { change 1135%nat with (5 + (200 + (20 + (600 + 310))))%nat.
    rewrite !seq_app, <-!Nat.add_assoc. reflexivity. }
  rewrite !fmap_app. repeat apply sublist_app.
  - refine (table_part_ids env (A:=User.t) 1 n m _ (clock_pos w) _ _ _). intros Hk.
    destruct (Hu ltac:(lia)) as (HF & Hst).
    split; [done|]. by apply Forall2_range_length in HF.
  - refine (table_part_ids env (A:=Target.t) 2 n m _ (clock_pos w + 5) _ _ _). intros Hk.
    destruct (Ht ltac:(lia)) as (HF & Hst).
    split; [done|]. by apply Forall2_range_length in HF.
  - refine (table_part_ids env (A:=Secret.t) 3 n m _ (clock_pos w + 205) _ _ _). intros Hk.
    destruct (Hs ltac:(lia)) as (HF & Hst).
    split; [done|]. by apply Forall2_range_length in HF.
  - refine (table_part_ids env (A:=TargetSecret.t) 4 n m _ (clock_pos w + 225) _ _ _). intros Hk.
    by destruct (Hb ltac:(lia)) as (_ & Hlen & Hst).
  - refine (table_part_ids env (A:=CasbinRule.t) 5 n m _ (clock_pos w + 825) _ _ _). intros Hk.
    by destruct (Hc ltac:(lia)) as (_ & Hlen & Hst).
Qed.

(** No id is written twice, in one table or across tables, when the
    identifiers [uuid4()] returns during the run are pairwise different. *)
Theorem generate_ids_unique env w :
  NoDup (uuid_at env <$> seq (uuid_pos w) 1135) → NoDup (written_ids env w).
Proof. intros Hnd. eapply sublist_NoDup; [done|apply written_ids_sublist]. Qed.

Lemma generate_ids_unique_witness :
  NoDup (written_ids sample_env (start_world admin_db)).
Proof.
  apply (generate_ids_unique sample_env (start_world admin_db)).
  apply (NoDup_fmap_1 string_key), (bool_decide_unpack _).
  vm_compute. reflexivity.
Defined.

(** *** The text of an identifier *)

Lemma get_hex_pad_acc width : ∀ n acc j,
  get (width + j) (hex_pad width n acc) = get j acc.
Proof.
  induction width as [|width IH]; intros n acc j; simpl; [done|].
  replace (S (width + j)) with (width + S j)%nat by lia.
  rewrite IH. done.
Qed.

Lemma get_hex_pad width : ∀ n acc i,
  (i < width)%nat →
  get i (hex_pad width n acc)
  = Some (hex_digit (N.land (N.shiftr n (4 * N.of_nat (width - 1 - i))) 15)).
Proof.
  induction width as [|width IH]; intros n acc i Hi; [lia|]. simpl.
  destruct (decide (i = width)) as [->|Hne].
  - rewrite <-(Nat.add_0_r width) at 1. rewrite get_hex_pad_acc. simpl.
    replace (width - 0 - width)%nat with 0%nat by lia. done.
  - rewrite IH by lia. rewrite N.shiftr_shiftr. do 3 f_equal. f_equal. lia.
Qed.

Lemma version_nibble r : N.land (N.shiftr (uuid4_int r) 76) 15 = 4%N.
Proof.
  apply N.bits_inj. intros j. unfold uuid4_int. cbv zeta.
  rewrite N.land_spec, N.shiftr_spec', N.lor_spec, N.ldiff_spec.
  rewrite (N.shiftl_spec_alt 4 76 j).
  replace (j + 76)%N with ((j + 12) + 64)%N by lia.
  rewrite (N.shiftl_spec_alt 0xf000 64 (j + 12)).
  destruct (decide (j < 4)%N) as [Hj|Hj].
  - assert (j = 0 ∨ j = 1 ∨ j = 2 ∨ j = 3)%N as [-> | [-> | [-> | ->]]] by lia;
      simpl; by rewrite ?andb_false_r, ?andb_true_r.
  - assert (N.testbit 15 j = false) as ->.
    { apply N.bits_above_log2. simpl. lia. }
    rewrite andb_false_r. symmetry. apply N.bits_above_log2. simpl. lia.
Qed.

Lemma get_append_r (s1 s2 : string) k n :
  String.length s1 = k → get (k + n) (s1 +:+ s2) = get n s2.
Proof. intros <-. rewrite Nat.add_comm. symmetry. apply append_correct2. Qed.

Lemma testbit_63 r : N.testbit (uuid4_int r) 63 = true.
Proof.
  unfold uuid4_int. cbv zeta.
  rewrite N.lor_spec, N.ldiff_spec, N.lor_spec, N.ldiff_spec.
  replace (N.testbit (N.shiftl 32768 48) 63) with true by (vm_compute; reflexivity).
  replace (N.testbit (N.shiftl 61440 64) 63) with false by (vm_compute; reflexivity).
  by rewrite orb_true_r.
Qed.

Lemma testbit_62 r : N.testbit (uuid4_int r) 62 = false.
Proof.
  unfold uuid4_int. cbv zeta.
  rewrite N.lor_spec, N.ldiff_spec, N.lor_spec, N.ldiff_spec.
  replace (N.testbit (N.shiftl 32768 48) 62) with false by (vm_compute; reflexivity).
  replace (N.testbit (N.shiftl 49152 48) 62) with true by (vm_compute; reflexivity).
  replace (N.testbit (N.shiftl 4 76) 62) with false by (vm_compute; reflexivity).
  by rewrite andb_false_r.
Qed.

Lemma variant_nibble r :
  hex_digit (N.land (N.shiftr (uuid4_int r) 60) 15) ∈ ["8"; "9"; "a"; "b"]%char.
Proof.
  set (v := N.land (N.shiftr (uuid4_int r) 60) 15).
  assert (N.testbit v 3 = true) as H3.
  { unfold v. rewrite N.land_spec, N.shiftr_spec'. simpl N.add.
    by rewrite testbit_63. }
  assert (N.testbit v 2 = false) as H2.
  { unfold v. rewrite N.land_spec, N.shiftr_spec'. simpl N.add.
    by rewrite testbit_62. }
  assert (v < 16)%N as Hv.
  { unfold v. change 15%N with (N.ones 4). rewrite N.land_ones.
    apply N.mod_lt. done. }
  clearbody v. rewrite <-(N2Nat.id v) in *.
  assert (N.to_nat v < 16)%nat as Hk by lia. clear Hv.
  generalize dependent (N.to_nat v). intros k H3 H2 Hk.
  do 16 (destruct k as [|k];
    [first [discriminate H3 | discriminate H2 | vm_compute; set_solver]|]).
  lia.
Qed.

Lemma get_dashed (A B C D E : string) :
  String.length A = 8%nat → String.length B = 4%nat →
  String.length C = 4%nat → String.length D = 4%nat →
  let s := A +:+ "-" +:+ B +:+ "-" +:+ C +:+ "-" +:+ D +:+ "-" +:+ E in
  get 8 s = Some "-"%char ∧ get 13 s = Some "-"%char ∧
  get 18 s = Some "-"%char ∧ get 23 s = Some "-"%char ∧
  get 14 s = get 0 C ∧ get 19 s = get 0 D.
Proof.
  intros HA HB HC HD s. unfold s. split_and!.
  - change 8%nat with (8 + 0)%nat. by rewrite (get_append_r A _ 8 _ HA).
  - change 13%nat with (8 + (1 + (4 + 0)))%nat.
    rewrite (get_append_r A _ 8 _ HA), (get_append_r "-" _ 1 _ eq_refl),
      (get_append_r B _ 4 _ HB). done.
  - change 18%nat with (8 + (1 + (4 + (1 + (4 + 0)))))%nat.
    rewrite (get_append_r A _ 8 _ HA), (get_append_r "-" _ 1 _ eq_refl),
      (get_append_r B _ 4 _ HB), (get_append_r "-" _ 1 _ eq_refl),
      (get_append_r C _ 4 _ HC). done.
  - change 23%nat with (8 + (1 + (4 + (1 + (4 + (1 + (4 + 0)))))))%nat.
    rewrite (get_append_r A _ 8 _ HA), (get_append_r "-" _ 1 _ eq_refl),
      (get_append_r B _ 4 _ HB), (get_append_r "-" _ 1 _ eq_refl),
      (get_append_r C _ 4 _ HC), (get_append_r "-" _ 1 _ eq_refl),
      (get_append_r D _ 4 _ HD). done.
  - change 14%nat with (8 + (1 + (4 + (1 + 0))))%nat.
    rewrite (get_append_r A _ 8 _ HA), (get_append_r "-" _ 1 _ eq_refl),
      (get_append_r B _ 4 _ HB), (get_append_r "-" _ 1 _ eq_refl).
    symmetry. apply append_correct1. lia.
  - change 19%nat with (8 + (1 + (4 + (1 + (4 + (1 + 0))))))%nat.
    rewrite (get_append_r A _ 8 _ HA), (get_append_r "-" _ 1 _ eq_refl),
      (get_append_r B _ 4 _ HB), (get_append_r "-" _ 1 _ eq_refl),
      (get_append_r C _ 4 _ HC), (get_append_r "-" _ 1 _ eq_refl).
    symmetry. apply append_correct1. lia.
Qed.

Lemma uuid_str_shape r : uuid_shape (uuid_str (uuid4_int r)).
Proof.
  split; [apply length_uuid_str|].
  unfold uuid_str. cbv zeta.
  set (hex := hex_pad 32 (uuid4_int r) EmptyString).
  assert (String.length hex = 32%nat) as Hhex
    by (unfold hex; by rewrite length_hex_pad).
  destruct (get_dashed (substring 0 8 hex) (substring 8 4 hex)
              (substring 12 4 hex) (substring 16 4 hex) (substring 20 12 hex))
    as (H8 & H13 & H18 & H23 & H14 & H19);
    try (rewrite length_substring by lia; reflexivity).
  split_and!; try done.
  - rewrite H14, substring_correct1 by lia. unfold hex.
    rewrite get_hex_pad by lia. simpl N.mul. by rewrite version_nibble.
  - exists (hex_digit (N.land (N.shiftr (uuid4_int r) 60) 15)).
    split; [|apply variant_nibble].
    rewrite H19, substring_correct1 by lia. unfold hex.
    by rewrite get_hex_pad by lia.
Qed.

(** Every id written is the canonical text of a version-4 UUID, whatever
    the 16 random bytes were. *)
Theorem generate_id_format env w : Forall uuid_shape (written_ids env w).
Proof.
  apply Forall_forall. intros i Hi.
  eapply elem_of_sublist in Hi; [|apply written_ids_sublist].
  apply list_elem_of_fmap in Hi as (k & -> & _). apply uuid_str_shape.
Qed.

(** ** The helpers [rand_future_ts] and [rand_past_ts] *)

(** With at least one minute in [days], [rand_future_ts] returns a time
    between one minute and [days] days after [from_ts] (the clock reading
    when [from_ts] is [None]), and [rand_past_ts] one as far before it. *)
Theorem rand_ts_range env from_ts days w :
  60 ≤ days * 24 * 3600 →
  wp (rand_future_ts env from_ts days) w (λ t _,
      let base := default (now_at env (clock_pos w)) from_ts in
      base + 60 ≤ t ≤ base + days * 24 * 3600) ∧
  wp (rand_past_ts env from_ts days) w (λ t _,
      let base := default (now_at env (clock_pos w)) from_ts in
      base - days * 24 * 3600 ≤ t ≤ base - 60).
Proof.
  intros Hdays. unfold rand_future_ts, rand_past_ts.
  split; apply wp_bind; (destruct from_ts as [t0|]; [apply wp_ret|apply wp_now_ts]);
    apply wp_bind, wp_randint; try done; intros d Hd; apply wp_ret; simpl; lia.
Qed.

Lemma rand_ts_range_witness :
  wp (rand_future_ts sample_env None 365) (start_world admin_db) (λ t _,
      let base := default (now_at sample_env (clock_pos (start_world admin_db))) None in
      base + 60 ≤ t ≤ base + 365 * 24 * 3600) ∧
  wp (rand_past_ts sample_env None 365) (start_world admin_db) (λ t _,
      let base := default (now_at sample_env (clock_pos (start_world admin_db))) None in
      base - 365 * 24 * 3600 ≤ t ≤ base - 60).
Proof. apply (rand_ts_range sample_env None 365 (start_world admin_db)). lia. Defined.

(** With less than one minute in [days] (so for [days] = 0 and below), both
    helpers raise ValueError: [random.randint] gets an empty range. *)
Theorem rand_ts_empty_range env from_ts days w :
  days * 24 * 3600 < 60 →
  (rand_future_ts env from_ts days w).1 = Raise ValueError ∧
  (rand_past_ts env from_ts days w).1 = Raise ValueError.
Proof.
  intros Hdays. unfold rand_future_ts, rand_past_ts, randint.
  case_decide; [|lia]. by destruct from_ts.
Qed.

Lemma rand_ts_empty_range_witness :
  (rand_future_ts sample_env (Some 1000) 0 (start_world admin_db)).1
    = Raise ValueError ∧
  (rand_past_ts sample_env (Some 1000) 0 (start_world admin_db)).1
    = Raise ValueError.
Proof.
  apply (rand_ts_empty_range sample_env (Some 1000) 0 (start_world admin_db)). lia.
Defined.
